(** * pkg/table/writer.go: the streaming table writer

    A shallow embedding of the Go package [table] (file
    [pkg/table/writer.go]) and the properties of its write/close
    protocol, its mode selection and its template helper functions.

    Layout of the development:
    - [reflect] and [Value]: Go's dynamic values, their kinds and [IsNil];
    - [float64]: IEEE 754 binary64, from the Standard Library's
      executable specification of floating-point numbers;
    - [gostring]: byte strings, slicing, decimal printing;
    - [table]: the package itself, over a record [Libs] of the libraries
      and the sibling functions it calls; a sink is observed through the
      record of the calls made on it;
    - [scenario]: concrete libraries, to run the package;
    - [graph], [catalog], [construction], [protocol]: the properties. *)

From Stdlib Require Import ZArith String Ascii List Bool Lia.
From Stdlib Require Import DecimalString.
From Stdlib Require Import Floats.SpecFloat.
From stdpp Require Import gmap strings list fin_maps.

Import ListNotations.
Local Open Scope Z_scope.
Local Open Scope string_scope.
Local Open Scope list_scope.

(** Go's [error] values. The kinds are the ones the writer can meet; the
    message distinguishes errors of one kind. *)
Inductive ErrorKind :=
| TemplateParseError
| TemplateExecutionError
| EncodingError
| ConversionError
| SinkWriteError
| FlushError.

Record error := mkError { err_kind : ErrorKind; err_msg : string }.

(** A call either returns or panics. *)
Inductive outcome (A : Type) :=
| Returned (a : A)
| Panicked (msg : string).
Arguments Returned {A} a.
Arguments Panicked {A} msg.

(** ** Dynamic values and reflection *)

Module reflect.

(** [reflect.Kind], in the order of the Go declaration. *)
Inductive Kind :=
| Invalid | Bool | Int | Int8 | Int16 | Int32 | Int64
| Uint | Uint8 | Uint16 | Uint32 | Uint64 | Uintptr
| Float32 | Float64 | Complex64 | Complex128
| Array | Chan | Func | Interface | Map | Pointer | Slice
| String | Struct | UnsafePointer.

(** The kinds on which [Value.IsNil] is defined. *)
Definition nilable (k : Kind) : bool :=
  match k with
  | Chan | Func | Interface | Map | Pointer | Slice | UnsafePointer => true
  | _ => false
  end.

End reflect.

(** A value held in an [interface{}]. Reference kinds carry [None] for
    their nil value. *)
#[warnings="-register-all"]
Inductive Value :=
| Nil
| BoolVal (b : bool)
| IntVal (n : Z)
| FloatVal (f : spec_float)
| StringVal (s : string)
| StructVal (fields : list (string * Value))
| ArrayVal (elems : list Value)
| PtrVal (target : option Value)
| SliceVal (elems : option (list Value))
| MapVal (entries : option (gmap string Value))
| ChanVal (id : option nat)
| FuncVal (id : option nat)
| UnsafePointerVal (addr : option Z).

(** [reflect.ValueOf(v).Kind()]: the nil interface gives the zero
    [reflect.Value], whose kind is [Invalid]. *)
Definition kindOf (v : Value) : reflect.Kind :=
  match v with
  | Nil => reflect.Invalid
  | BoolVal _ => reflect.Bool
  | IntVal _ => reflect.Int
  | FloatVal _ => reflect.Float64
  | StringVal _ => reflect.String
  | StructVal _ => reflect.Struct
  | ArrayVal _ => reflect.Array
  | PtrVal _ => reflect.Pointer
  | SliceVal _ => reflect.Slice
  | MapVal _ => reflect.Map
  | ChanVal _ => reflect.Chan
  | FuncVal _ => reflect.Func
  | UnsafePointerVal _ => reflect.UnsafePointer
  end.

(** Whether a value of a reference kind is that kind's nil. *)
Definition isNilRef (v : Value) : bool :=
  match v with
  | PtrVal None | SliceVal None | MapVal None
  | ChanVal None | FuncVal None | UnsafePointerVal None => true
  | _ => false
  end.

(** [reflect.ValueOf(v).IsNil()]: panics unless the kind is a channel,
    function, interface, map, pointer, slice or unsafe pointer. *)
Definition IsNil (v : Value) : outcome bool :=
  if reflect.nilable (kindOf v) then Returned (isNilRef v)
  else Panicked "reflect: call of reflect.Value.IsNil on non-nilable Value".

(** The type assertion [v.(bool)]. *)
Definition as_bool (v : Value) : option bool :=
  match v with
  | BoolVal b => Some b
  | _ => None
  end.

(** The type assertion of [v] to [*bool], with the pointer's target; the
    nil pointer carries no element type here and is taken to be a [*bool]
    ([BoolToStar] answers the same when it is not). *)
Definition as_bool_ptr (v : Value) : option (option bool) :=
  match v with
  | PtrVal None => Some None
  | PtrVal (Some (BoolVal b)) => Some (Some b)
  | _ => None
  end.

(** ** binary64 *)

Module float64.

Definition prec : Z := 53.
Definition emax : Z := 1024.

(** [float64(n)] for an integer [n]: round to nearest, ties to even. *)
Definition of_int (n : Z) : spec_float := binary_normalize prec emax n 0 false.

Definition div : spec_float -> spec_float -> spec_float := SFdiv prec emax.
Definition mul : spec_float -> spec_float -> spec_float := SFmul prec emax.

(** The signed mantissa of a finite float: its value is
    [mantissa * 2^exponent]. *)
Definition mantissa (f : spec_float) : Z :=
  match f with
  | S754_finite s m _ => cond_Zopp s (Zpos m)
  | _ => 0
  end.

Definition exponent (f : spec_float) : Z :=
  match f with
  | S754_finite _ _ e => e
  | _ => 0
  end.

(** [int(f)]: the fractional part is discarded (truncation towards
    zero). [Z.shiftl] by a negative amount divides, rounding down, so it
    is applied to the magnitude. *)
Definition to_int (f : spec_float) : Z :=
  Z.sgn (mantissa f) * Z.shiftl (Z.abs (mantissa f)) (exponent f).

(** The mathematical floor of a finite float. *)
Definition floor (f : spec_float) : Z :=
  Z.shiftl (mantissa f) (exponent f).

(** A float that is not a positive finite number. *)
Definition nonpos (f : spec_float) : bool :=
  match f with
  | S754_finite s _ _ => s
  | _ => true
  end.

End float64.

(** ** Strings *)

Module gostring.

(** [len(s)]: the number of bytes. *)
Definition len (s : string) : Z := Z.of_nat (String.length s).

(** [s[:n]] for [0 <= n <= len(s)]. *)
Definition slice_to (s : string) (n : Z) : string :=
  String.substring 0 (Z.to_nat n) s.

(** The line feed, Go's ["\n"]. *)
Definition LF : string := String "010"%char EmptyString.

(** [fmt.Sprint] of an [int]: decimal, with a minus sign when negative. *)
Definition decimal (n : Z) : string := NilZero.string_of_int (Z.to_int n).

(** [n] copies of the byte [c]. *)
Fixpoint replicate (n : nat) (c : ascii) : string :=
  match n with
  | O => EmptyString
  | S n' => String c (replicate n' c)
  end.

(** The last byte of a string. *)
Fixpoint last_byte (s : string) : option ascii :=
  match s with
  | EmptyString => None
  | String a EmptyString => Some a
  | String _ rest => last_byte rest
  end.

(** [strings.Join]. *)
Fixpoint Join (elems : list string) (sep : string) : string :=
  match elems with
  | [] => ""
  | [x] => x
  | x :: rest => x +:+ sep +:+ Join rest sep
  end.

End gostring.

(** * The package *)

Module table.

Abbreviation LF := gostring.LF.

(** ** The sink *)

(** An [io.Writer] as the package sees it: the stream of the
    configuration, or a [*tabwriter.Writer] around one (with the
    arguments of [tabwriter.NewWriter]). *)
Inductive ioWriter :=
| Stream (name : string)
| TabWriter (output : ioWriter) (minwidth tabwidth padding : Z)
            (padchar : ascii) (flags : Z).

(** The type assertion of [w] to [*tabwriter.Writer]. *)
Definition is_tabwriter (w : ioWriter) : bool :=
  match w with
  | TabWriter _ _ _ _ _ _ => true
  | Stream _ => false
  end.

(** The calls the package makes on its sink, in order. *)
Inductive Event :=
| EvWrite (p : string)
| EvFlush.

Definition is_flush (ev : Event) : bool :=
  match ev with
  | EvFlush => true
  | EvWrite _ => false
  end.

(** How many times the sink was flushed. *)
Definition flushes (log : list Event) : nat :=
  length (List.filter is_flush log).

(** ** The function map *)

(** [FormatFunc] is [interface{}]; the values stored in a function map
    are the package's own functions, the per-writer [id] closure (with
    the configuration it captured), sprig's functions, and functions
    added by the caller. *)
Inductive FormatFunc :=
| fnFormatJSON | fnFormatJSONCompact | fnFormatYAML | fnFormatFirst
| fnFormatSpew | fnToJSON | fnBoolToStar | fnToArray | fnToArrayFirst
| fnGraph | fnPointer
| fnId (noTrunc quiet : bool)
| fnSprig (name : string)
| fnUser (tag : nat).

Definition localFuncMap : gmap string FormatFunc :=
  list_to_map
    [ ("json", fnFormatJSON); ("jsoncompact", fnFormatJSONCompact);
      ("yaml", fnFormatYAML); ("first", fnFormatFirst);
      ("dump", fnFormatSpew); ("toJson", fnToJSON);
      ("boolToStar", fnBoolToStar); ("array", fnToArray);
      ("arrayFirst", fnToArrayFirst); ("graph", fnGraph);
      ("pointer", fnPointer) ].

(** ** What the package calls *)

(** The libraries, and the two functions of the package that live in
    another file ([SimpleFormat], [SimpleColumnFormat]: the layout of the
    default templates), are parameters of the development. A call on the
    sink answers from the calls made so far. A byte slice with an error
    is a string with an optional error. [convert.EncodeToMap] returns an
    allocated map when it returns no error. [text/template] executes a
    template as a sequence of writes to its output, stops at the first
    write that fails, and otherwise returns its own result. *)
Record Libs := {
  SimpleFormat : list (list string) -> string * string;
  SimpleColumnFormat : string -> string;
  sprig_TxtFuncMap : gmap string FormatFunc;
  json_MarshalIndent : Value -> string -> string -> string * option error;
  json_Marshal : Value -> string * option error;
  yaml_JSONToYAML : string -> string * option error;
  convert_EncodeToMap : Value -> gmap string Value + error;
  template_Parse : gmap string FormatFunc -> string -> option error;
  template_Execute :
    gmap string FormatFunc -> string -> Value -> list string * option error;
  fmt_Sprint : Value -> string;
  io_Write : ioWriter -> list Event -> string -> option error;
  tabwriter_Flush : ioWriter -> list Event -> option error
}.

(** ** Types *)

Module WriterConfig.
Record t := {
  Quiet : bool;
  NoTrunc : bool;
  Format : string;
  Writer : ioWriter;
  IDColumn : string
}.
End WriterConfig.

Record writer := {
  closed : bool;
  HeaderFormat : string;
  ValueFormat : string;
  err : option error;
  headerPrinted : bool;
  Writer : ioWriter;
  funcMap : gmap string FormatFunc
}.

Definition set_closed (b : bool) (t : writer) : writer :=
  {| closed := b; HeaderFormat := HeaderFormat t;
     ValueFormat := ValueFormat t; err := err t;
     headerPrinted := headerPrinted t; Writer := Writer t;
     funcMap := funcMap t |}.

Definition set_err (e : option error) (t : writer) : writer :=
  {| closed := closed t; HeaderFormat := HeaderFormat t;
     ValueFormat := ValueFormat t; err := e;
     headerPrinted := headerPrinted t; Writer := Writer t;
     funcMap := funcMap t |}.

Definition set_headerPrinted (b : bool) (t : writer) : writer :=
  {| closed := closed t; HeaderFormat := HeaderFormat t;
     ValueFormat := ValueFormat t; err := err t;
     headerPrinted := b; Writer := Writer t;
     funcMap := funcMap t |}.

Definition set_formats (h v : string) (t : writer) : writer :=
  {| closed := closed t; HeaderFormat := h;
     ValueFormat := v; err := err t;
     headerPrinted := headerPrinted t; Writer := Writer t;
     funcMap := funcMap t |}.

Definition set_funcMap (m : gmap string FormatFunc) (t : writer) : writer :=
  {| closed := closed t; HeaderFormat := HeaderFormat t;
     ValueFormat := ValueFormat t; err := err t;
     headerPrinted := headerPrinted t; Writer := Writer t;
     funcMap := m |}.

(** [e != nil]. *)
Definition failed (e : option error) : bool :=
  match e with
  | Some _ => true
  | None => false
  end.

(** ** Template helper functions *)

(** The closure stored under ["id"] by [NewWriter]. *)
Definition id (config : WriterConfig.t) (obj : string) : string * option error :=
  let id := obj in
  if WriterConfig.NoTrunc config || WriterConfig.Quiet config then (id, None)
  else if (12 <? gostring.len id)%Z then (gostring.slice_to id 12, None)
  else (id, None).

Definition ToArray (s : list string) : string * option error :=
  (gostring.Join s ", ", None).

Definition ToArrayFirst (s : list string) : string * option error :=
  if (0 <? length s)%nat then (nth 0 s "", None)
  else ("", None).

Definition BoolToStar (obj : Value) : string * option error :=
  match as_bool obj with
  | Some true => ("*", None)
  | _ =>
      match as_bool_ptr obj with
      | Some (Some true) => ("*", None)
      | _ => ("", None)
      end
  end.

(** [bars] of [Graph]: [int(float64(value) / 100.0 * 30)]. *)
Definition Graph_scaled (value : Z) : spec_float :=
  float64.mul (float64.div (float64.of_int value) (float64.of_int 100))
              (float64.of_int 30).

Definition Graph_bars (value : Z) : Z := float64.to_int (Graph_scaled value).

(** The loop of [Graph], from counter [i] with the builder's content
    [builder]. The loop runs at most [bars - i] times, which bounds
    [fuel]. *)
Fixpoint Graph_loop (fuel : nat) (value bars i : Z) (builder : string) : string :=
  match fuel with
  | O => builder
  | S fuel' =>
      if (i <? bars)%Z then
        if (i =? bars - 1)%Z then builder +:+ ("> " +:+ gostring.decimal value)
        else Graph_loop fuel' value bars (i + 1) (builder +:+ "=")
      else builder
  end.

Definition Graph (value : Z) : string * option error :=
  let bars := Graph_bars value in
  (Graph_loop (Z.to_nat bars) value bars 0 "", None).

Section WithLibs.

Context (L : Libs).

(** [Pointer]: [reflect.ValueOf(data).IsNil()] may panic. *)
Definition Pointer (data : Value) : outcome string :=
  match IsNil data with
  | Panicked msg => Panicked msg
  | Returned true => Returned ""
  | Returned false => Returned (fmt_Sprint L data)
  end.

Definition FormatJSON (data : Value) : string * option error :=
  let '(bytes, err) := json_MarshalIndent L data "" "    " in
  (bytes +:+ LF, err).

Definition FormatJSONCompact (data : Value) : string * option error :=
  let '(bytes, err) := json_Marshal L data in
  (bytes +:+ LF, err).

(** ** Construction *)

Fixpoint idFormat (idColumn : string) (values : list (list string)) : string :=
  match values with
  | [] => ""
  | vals :: rest =>
      if (1 <? length vals)%nat
         && String.eqb (nth 0 vals "") idColumn
      then SimpleColumnFormat L (nth 1 vals "") +:+ LF
      else idFormat idColumn rest
  end.

Definition NewWriter (values : list (list string))
           (config : WriterConfig.t) : writer :=
  let funcMap := localFuncMap ∪ sprig_TxtFuncMap L in
  let funcMap :=
    <["id" := fnId (WriterConfig.NoTrunc config) (WriterConfig.Quiet config)]>
      funcMap in
  let t := {| closed := false; HeaderFormat := ""; ValueFormat := "";
              err := None; headerPrinted := false;
              Writer :=
                if String.eqb (WriterConfig.Format config) "raw"
                then WriterConfig.Writer config
                else TabWriter (WriterConfig.Writer config) 10 1 3 " " 0;
              funcMap := funcMap |} in
  let t := set_formats (fst (SimpleFormat L values))
                       (snd (SimpleFormat L values)) t in
  let t :=
    if WriterConfig.Quiet config
    then set_formats "" (idFormat (WriterConfig.IDColumn config) values) t
    else t in
  let customFormat := WriterConfig.Format config in
  if String.eqb customFormat "json" then set_formats "" "json" t
  else if String.eqb customFormat "jsoncompact" then set_formats "" "jsoncompact" t
  else if String.eqb customFormat "yaml" then set_formats "" "yaml" t
  else if String.eqb customFormat "raw" then t
  else if negb (String.eqb customFormat "")
       then set_formats "" (customFormat +:+ LF) t
       else t.

Definition AddFormatFunc (name : string) (f : FormatFunc) (t : writer) : writer :=
  set_funcMap (<[name := f]> (funcMap t)) t.

(** ** Rendering *)

(** The writes of an executing template: each chunk goes to [out]; the
    first failing write ends the execution with its error. *)
Fixpoint write_chunks (out : ioWriter) (chunks : list string)
         (log : list Event) : option error * list Event :=
  match chunks with
  | [] => (None, log)
  | c :: rest =>
      match io_Write L out log c with
      | Some e => (Some e, log ++ [EvWrite c])
      | None => write_chunks out rest (log ++ [EvWrite c])
      end
  end.

Definition printTemplate (t : writer) (out : ioWriter)
           (templateContent : string) (obj : Value)
           (log : list Event) : option error * list Event :=
  match template_Parse L (funcMap t) templateContent with
  | Some err => (Some err, log)
  | None =>
      let '(chunks, res) :=
        template_Execute L (funcMap t) templateContent obj in
      match write_chunks out chunks log with
      | (Some e, log') => (Some e, log')
      | (None, log') => (res, log')
      end
  end.

(** ** The protocol *)

Definition writeHeader (t : writer) (log : list Event) : writer * list Event :=
  if negb (String.eqb (HeaderFormat t) "") && negb (headerPrinted t) then
    let t := set_headerPrinted true t in
    let '(e, log) :=
      printTemplate t (Writer t) (HeaderFormat t) (StructVal []) log in
    (set_err e t, log)
  else (t, log).

Definition Write (obj : Value) (t : writer) (log : list Event)
  : writer * list Event :=
  if failed (err t) then (t, log) else
  let '(t, log) := writeHeader t log in
  if failed (err t) then (t, log) else
  if String.eqb (ValueFormat t) "json" then
    let '(content, err) := FormatJSON obj in
    let t := set_err err t in
    if failed err then (t, log) else
    (set_err (io_Write L (Writer t) log (content +:+ LF)) t,
     log ++ [EvWrite (content +:+ LF)])
  else if String.eqb (ValueFormat t) "jsoncompact" then
    let '(content, err) := FormatJSONCompact obj in
    let t := set_err err t in
    if failed err then (t, log) else
    (set_err (io_Write L (Writer t) log content) t,
     log ++ [EvWrite content])
  else if String.eqb (ValueFormat t) "yaml" then
    let '(content, err) := FormatJSON obj in
    let t := set_err err t in
    if failed err then (t, log) else
    let '(converted, err) := yaml_JSONToYAML L content in
    let t := set_err err t in
    if failed err then (t, log) else
    let log := log ++ [EvWrite ("---" +:+ LF)] in
    (set_err (io_Write L (Writer t) log (converted +:+ LF)) t,
     log ++ [EvWrite (converted +:+ LF)])
  else
    match convert_EncodeToMap L obj with
    | inl data =>
        let data := <["Typed" := obj]> data in
        let '(e, log) :=
          printTemplate t (Writer t) (ValueFormat t) (MapVal (Some data)) log in
        (set_err e t, log)
    | inr _ =>
        let '(e, log) :=
          printTemplate t (Writer t) (ValueFormat t) obj log in
        (set_err e t, log)
    end.

(** [Close]: the deferred assignment [t.closed = true] is registered
    after the two early returns, and runs on every later return. *)
Definition Close (t : writer) (log : list Event)
  : option error * writer * list Event :=
  if closed t then (err t, t, log) else
  if failed (err t) then (err t, t, log) else
  let '(t, log) := writeHeader t log in
  if failed (err t) then (err t, set_closed true t, log) else
  if is_tabwriter (Writer t)
  then (tabwriter_Flush L (Writer t) log, set_closed true t, log ++ [EvFlush])
  else (None, set_closed true t, log).

Definition Err (t : writer) (log : list Event)
  : option error * writer * list Event :=
  Close t log.

(** ** Sequences of calls *)

Inductive Call :=
| CallWrite (obj : Value)
| CallClose
| CallErr
| CallAddFormatFunc (name : string) (f : FormatFunc).

Definition call (c : Call) (st : writer * list Event) : writer * list Event :=
  match c with
  | CallWrite obj => Write obj (fst st) (snd st)
  | CallClose => let '(_, t, log) := Close (fst st) (snd st) in (t, log)
  | CallErr => let '(_, t, log) := Err (fst st) (snd st) in (t, log)
  | CallAddFormatFunc name f => (AddFormatFunc name f (fst st), snd st)
  end.

Definition calls (cs : list Call) (st : writer * list Event)
  : writer * list Event :=
  fold_left (fun st c => call c st) cs st.

End WithLibs.

(** ** Functions over other conversions *)

Section Conversions.

(** [convert.ToString], of the norman library. *)
Context (convert_ToString : Value -> string).

Definition FormatFirst (data data2 : Value) : string * option error :=
  let str := convert_ToString data in
  if negb (String.eqb str "") then (str, None) else
  let str := convert_ToString data2 in
  if negb (String.eqb str "") then (str, None) else
  ("", None).

End Conversions.

(** ** Vocabulary of the properties *)

(** A row of the column definitions is named [idColumn] when its first
    cell is [idColumn]. *)
Definition named (idColumn : string) (row : list string) : bool :=
  match row with
  | cell :: _ => String.eqb cell idColumn
  | [] => false
  end.

(** The templates and the sink of [t'] are those of [t]. *)
Definition same_setup (t t' : writer) : Prop :=
  HeaderFormat t' = HeaderFormat t
  /\ ValueFormat t' = ValueFormat t
  /\ Writer t' = Writer t.

(** The calls of a sequence during which [headerPrinted] goes from false
    to true. *)
Fixpoint header_transitions (L : Libs) (cs : list Call)
         (st : writer * list Event) : nat :=
  match cs with
  | [] => 0
  | c :: rest =>
      (if negb (headerPrinted (fst st)) && headerPrinted (fst (call L c st))
       then 1 else 0)
      + header_transitions L rest (call L c st)
  end.

(** Whether a call, made in state [t], gets to render the header. *)
Definition renders_header (c : Call) (t : writer) : bool :=
  match c with
  | CallWrite _ => negb (failed (err t))
  | CallClose | CallErr => negb (closed t) && negb (failed (err t))
  | CallAddFormatFunc _ _ => false
  end
  && negb (String.eqb (HeaderFormat t) "") && negb (headerPrinted t).

(** Whether [Close], called in state [t], flushed the sink and returned
    an error. *)
Definition flush_failed (L : Libs) (t : writer) (log : list Event) : bool :=
  let '(e, _, log') := Close L t log in
  failed e && (flushes log <? flushes log')%nat.

(** The mode tags stored in [ValueFormat]. *)
Definition sentinels : list string := ["json"; "jsoncompact"; "yaml"].

(** The context [Write] hands to the value template. *)
Definition value_context (L : Libs) (obj : Value) : Value :=
  match convert_EncodeToMap L obj with
  | inl data => MapVal (Some (<["Typed" := obj]> data))
  | inr _ => obj
  end.

(** The writes of a template that executes to the end. *)
Definition rendered (L : Libs) (t : writer) (text : string) (data : Value)
  : list Event :=
  map EvWrite (fst (template_Execute L (funcMap t) text data)).

(** The template [text] parses with the functions of [t] and executes to
    the end on the context [data]. *)
Definition renders_on (L : Libs) (t : writer) (text : string) (data : Value)
  : Prop :=
  template_Parse L (funcMap t) text = None
  /\ snd (template_Execute L (funcMap t) text data) = None.

Definition panics {A : Type} (o : outcome A) : Prop :=
  match o with
  | Panicked _ => True
  | Returned _ => False
  end.

End table.

(** * Concrete libraries

    Stand-ins for the parameters, small enough to run: they fix one
    behaviour of each library so that the package can be evaluated on
    concrete inputs. *)

Module scenario.

Import table.

Definition TAB : string := String "009"%char EmptyString.

(** A stand-in layout: the header is the first cells joined by tabs, the
    value template the column templates joined by tabs, each with a line
    feed. *)
Definition layout_column (v : string) : string := "{{." +:+ v +:+ "}}".

Definition layout (values : list (list string)) : string * string :=
  (gostring.Join (map (fun row => nth 0 row "") values) TAB +:+ LF,
   gostring.Join (map (fun row => layout_column (nth 1 row "")) values) TAB +:+ LF).

(** A stand-in encoder: channels and functions cannot be marshalled. *)
Definition marshal (v : Value) : string * option error :=
  match v with
  | ChanVal _ | FuncVal _ =>
      ("", Some (mkError EncodingError "json: unsupported type"))
  | Nil => ("null", None)
  | BoolVal true => ("true", None)
  | BoolVal false => ("false", None)
  | IntVal n => (gostring.decimal n, None)
  | _ => ("{}", None)
  end.

(** A stand-in conversion: maps and structs convert, nothing else does. *)
Definition encodeToMap (v : Value) : gmap string Value + error :=
  match v with
  | MapVal (Some m) => inl m
  | StructVal fields => inl (list_to_map fields)
  | _ => inr (mkError ConversionError "cannot convert to map")
  end.

(** A stand-in template engine: a text with no action is a template that
    prints itself in one write; a text with an action is rejected. *)
Definition parse (fm : gmap string FormatFunc) (text : string) : option error :=
  match String.index 0 "{{" text with
  | Some _ => Some (mkError TemplateParseError "template: unexpected action")
  | None => None
  end.

Definition execute (fm : gmap string FormatFunc) (text : string) (data : Value)
  : list string * option error :=
  ([text], None).

Definition sprint (v : Value) : string :=
  match v with
  | StringVal s => s
  | IntVal n => gostring.decimal n
  | _ => "<value>"
  end.

(** The libraries, for a sink whose writes fail once [write_limit] calls
    were made on it and whose flush fails when [flush_fails]. *)
Definition libs (write_limit : nat) (flush_fails : bool) : Libs :=
  {| SimpleFormat := layout;
     SimpleColumnFormat := layout_column;
     sprig_TxtFuncMap := {[ "upper" := fnSprig "upper" ]};
     json_MarshalIndent := fun v _ _ => marshal v;
     json_Marshal := marshal;
     yaml_JSONToYAML := fun s => (s, None);
     convert_EncodeToMap := encodeToMap;
     template_Parse := parse;
     template_Execute := execute;
     fmt_Sprint := sprint;
     io_Write := fun _ log _ =>
       if (length log <? write_limit)%nat then None
       else Some (mkError SinkWriteError "write: broken pipe");
     tabwriter_Flush := fun _ _ =>
       if flush_fails then Some (mkError FlushError "flush: broken pipe")
       else None |}.

(** Libraries where nothing fails but what the stand-in encoder refuses:
    the template engine accepts every text (the empty template prints
    nothing), the sink accepts every write and every flush. *)
Definition plain_libs : Libs :=
  {| SimpleFormat := layout;
     SimpleColumnFormat := layout_column;
     sprig_TxtFuncMap := {[ "upper" := fnSprig "upper" ]};
     json_MarshalIndent := fun v _ _ => marshal v;
     json_Marshal := marshal;
     yaml_JSONToYAML := fun s => (s, None);
     convert_EncodeToMap := encodeToMap;
     template_Parse := fun _ _ => None;
     template_Execute := fun _ text _ =>
       if String.eqb text "" then ([], None) else ([text], None);
     fmt_Sprint := sprint;
     io_Write := fun _ _ _ => None;
     tabwriter_Flush := fun _ _ => None |}.

(** A sink that refuses its first write only. *)
Definition first_write_fails (log : list Event) : option error :=
  match log with
  | [] => Some (mkError SinkWriteError "write: interrupted")
  | _ => None
  end.

Definition flaky_libs : Libs :=
  {| SimpleFormat := layout;
     SimpleColumnFormat := layout_column;
     sprig_TxtFuncMap := {[ "upper" := fnSprig "upper" ]};
     json_MarshalIndent := fun v _ _ => marshal v;
     json_Marshal := marshal;
     yaml_JSONToYAML := fun s => (s, None);
     convert_EncodeToMap := encodeToMap;
     template_Parse := parse;
     template_Execute := execute;
     fmt_Sprint := sprint;
     io_Write := fun _ log _ => first_write_fails log;
     tabwriter_Flush := fun _ _ => None |}.

(** A stand-in template engine that reads fields: a text is literal text
    and actions of the form [{{.Name}}]; any other action, and an action
    left open, is a parse error. Executed, each literal and each field value
    is one write, in order; a field is read from a map (a missing key prints
    as no value), and reading a field of anything else ends the execution
    with an error. *)
Inductive segment :=
| Lit (s : string)
| Field (name : string).

Definition lit (cur : string) : list segment :=
  if String.eqb cur "" then [] else [Lit (String.rev cur)].

Fixpoint segments (inside : bool) (cur : string) (s : string)
  : option (list segment) :=
  match s with
  | EmptyString => if inside then None else Some (lit cur)
  | String a rest =>
      if inside then
        match s with
        | String "}" (String "}" rest') =>
            option_map (cons (Field (String.rev cur))) (segments false "" rest')
        | _ => segments true (String a cur) rest
        end
      else
        match s with
        | String "{" (String "{" (String "." rest')) =>
            option_map (app (lit cur)) (segments true "" rest')
        | String "{" (String "{" _) => None
        | _ => segments false (String a cur) rest
        end
  end.

Definition field_value (data : Value) (name : string) : string + error :=
  match data with
  | MapVal (Some m) =>
      match m !! name with
      | Some v => inl (sprint v)
      | None => inl "<no value>"
      end
  | _ => inr (mkError TemplateExecutionError "template: can't evaluate field")
  end.

Fixpoint run_segments (segs : list segment) (data : Value)
  : list string * option error :=
  match segs with
  | [] => ([], None)
  | Lit s :: rest =>
      let '(chunks, e) := run_segments rest data in (s :: chunks, e)
  | Field name :: rest =>
      match field_value data name with
      | inl s => let '(chunks, e) := run_segments rest data in (s :: chunks, e)
      | inr e => ([], Some e)
      end
  end.

Definition field_parse (fm : gmap string FormatFunc) (text : string)
  : option error :=
  match segments false "" text with
  | Some _ => None
  | None => Some (mkError TemplateParseError "template: unexpected action")
  end.

Definition field_execute (fm : gmap string FormatFunc) (text : string)
           (data : Value) : list string * option error :=
  match segments false "" text with
  | Some segs => run_segments segs data
  | None => ([], Some (mkError TemplateParseError "template: unexpected action"))
  end.

(** The libraries with that engine, over a sink that accepts every write
    and every flush. *)
Definition field_libs : Libs :=
  {| SimpleFormat := layout;
     SimpleColumnFormat := layout_column;
     sprig_TxtFuncMap := {[ "upper" := fnSprig "upper" ]};
     json_MarshalIndent := fun v _ _ => marshal v;
     json_Marshal := marshal;
     yaml_JSONToYAML := fun s => (s, None);
     convert_EncodeToMap := encodeToMap;
     template_Parse := field_parse;
     template_Execute := field_execute;
     fmt_Sprint := sprint;
     io_Write := fun _ _ _ => None;
     tabwriter_Flush := fun _ _ => None |}.

(** Two records, as maps. *)
Definition record (id name : string) : Value :=
  MapVal (Some (<["ID" := StringVal id]> {["Name" := StringVal name]})).

(** A stand-in [convert.ToString]. *)
Definition toString (v : Value) : string :=
  match v with
  | Nil => ""
  | StringVal s => s
  | IntVal n => gostring.decimal n
  | BoolVal true => "true"
  | BoolVal false => "false"
  | _ => "<value>"
  end.

Definition config (quiet : bool) (format : string) : WriterConfig.t :=
  {| WriterConfig.Quiet := quiet;
     WriterConfig.NoTrunc := false;
     WriterConfig.Format := format;
     WriterConfig.Writer := Stream "stdout";
     WriterConfig.IDColumn := "ID" |}.

Definition columns : list (list string) := [["ID"; "ID"]; ["NAME"; "Name"]].

End scenario.

(** * Properties *)

(** ** Strings *)

Module gostring_facts.

Import gostring.

Lemma app_cons (a : ascii) (s t : string) :
  String a s +:+ t = String a (s +:+ t).
Proof. reflexivity. Qed.

Lemma app_nil_l (s : string) : "" +:+ s = s.
Proof. reflexivity. Qed.

Lemma app_assoc (s t u : string) : (s +:+ t) +:+ u = s +:+ (t +:+ u).
Proof.
  induction s as [|a s IH]; [reflexivity|].
  now rewrite !app_cons, IH.
Qed.

(** A slice [s[:n]] within bounds is a prefix of [n] bytes. *)
Lemma substring_prefix (n : nat) (s : string) :
  (n <= String.length s)%nat ->
  exists rest, s = String.substring 0 n s +:+ rest
               /\ String.length (String.substring 0 n s) = n.
Proof.
  revert s. induction n as [|n IH]; intros s Hn.
  - exists s. destruct s; split; reflexivity.
  - destruct s as [|a s]; simpl in Hn; [lia|].
    destruct (IH s) as (rest & Hs & Hl); [lia|].
    exists rest. simpl. rewrite app_cons. split; congruence.
Qed.

End gostring_facts.

(** ** binary64 *)

Module float64_facts.

(** Truncation and floor agree on what [Graph] looks at: they are
    positive together, and then equal. *)
Lemma to_int_floor (f : spec_float) :
  (float64.to_int f <= 0 <-> float64.floor f <= 0)
  /\ (0 < float64.to_int f -> float64.floor f = float64.to_int f).
Proof.
  unfold float64.to_int, float64.floor.
  set (m := float64.mantissa f). set (e := float64.exponent f).
  destruct (Z.lt_trichotomy m 0) as [Hm | [Hm | Hm]].
  - assert (0 <= Z.shiftl (Z.abs m) e) by (apply Z.shiftl_nonneg; lia).
    assert (~ 0 <= Z.shiftl m e) by (rewrite Z.shiftl_nonneg; lia).
    rewrite (Z.sgn_neg m) by lia. lia.
  - rewrite Hm. change (Z.abs 0) with 0. rewrite !Z.shiftl_0_l. lia.
  - rewrite (Z.sgn_pos m), (Z.abs_eq m) by lia. lia.
Qed.

End float64_facts.

(** ** The template helper functions *)

Module graph.

Import table gostring gostring_facts.

(** The loop of [Graph], with enough fuel, appends [bars - 1 - i] signs
    and the label. *)
Lemma Graph_loop_run (fuel : nat) :
  forall (value bars i : Z) (builder : string),
    0 <= i < bars ->
    (Z.to_nat (bars - i) <= fuel)%nat ->
    Graph_loop fuel value bars i builder
    = builder +:+ (replicate (Z.to_nat (bars - 1 - i)) "="
                   +:+ ("> " +:+ decimal value)).
Proof.
  induction fuel as [|fuel IH]; intros value bars i builder Hi Hfuel.
  - lia.
  - cbn [Graph_loop].
    destruct (Z.ltb_spec i bars) as [_|]; [|lia].
    destruct (Z.eqb_spec i (bars - 1)) as [->|Hne].
    + replace (bars - 1 - (bars - 1)) with 0 by lia. reflexivity.
    + rewrite IH by lia.
      replace (Z.to_nat (bars - 1 - i))
        with (S (Z.to_nat (bars - 1 - (i + 1)))) by lia.
      cbn [replicate]. rewrite app_assoc. reflexivity.
Qed.

(** More fuel than the loop needs changes nothing. *)
Lemma Graph_loop_fuel (fuel : nat) (value bars i : Z) (builder : string) :
  0 <= i < bars ->
  (Z.to_nat (bars - i) <= fuel)%nat ->
  Graph_loop fuel value bars i builder
  = Graph_loop (Z.to_nat (bars - i)) value bars i builder.
Proof.
  intros Hi Hfuel. rewrite !Graph_loop_run by lia. reflexivity.
Qed.

(** With no bar to draw the loop body never runs. *)
Lemma Graph_loop_none (fuel : nat) (value bars : Z) (builder : string) :
  bars <= 0 -> Graph_loop fuel value bars 0 builder = builder.
Proof.
  intros Hb. destruct fuel as [|fuel]; [reflexivity|].
  cbn [Graph_loop]. destruct (Z.ltb_spec 0 bars); [lia|reflexivity].
Qed.

(** C8. [Graph value] computes [bars], the floor of
    [float64(value) / 100.0 * 30] in binary64 arithmetic. When [bars <= 0]
    the result is the empty string; otherwise it is [bars - 1] signs [=]
    followed by the label [> value] in decimal, which stands in the place of
    the last of the [bars] characters. No error is returned. [Graph 50]
    has [bars = 15]: fourteen signs and the label [> 50]; [Graph 0] is
    empty. *)
Theorem Graph_spec :
  (forall value : Z,
      let bars := float64.floor (Graph_scaled value) in
      Graph value
      = (if (bars <=? 0)%Z then ""
         else replicate (Z.to_nat (bars - 1)) "=" +:+ ("> " +:+ decimal value),
         None))
  /\ float64.floor (Graph_scaled 50) = 15
  /\ Graph 50 = (replicate 14 "=" +:+ "> 50", None)
  /\ Graph 0 = ("", None).
Proof.
  split; [|repeat split; vm_compute; reflexivity].
  intros value bars. unfold Graph, Graph_bars.
  destruct (float64_facts.to_int_floor (Graph_scaled value)) as [Hle Heq].
  fold bars in Hle, Heq.
  set (n := float64.to_int (Graph_scaled value)) in *.
  destruct (Z.leb_spec bars 0) as [Hb | Hb].
  - rewrite Graph_loop_none by (apply Hle; exact Hb). reflexivity.
  - assert (0 < n) as Hn by lia.
    rewrite (Heq Hn).
    rewrite Graph_loop_run by lia.
    rewrite app_nil_l. replace (n - 1 - 0) with (n - 1) by lia. reflexivity.
Qed.

(** The quotient and the product are rounded: at 410 the exact value is
    123, and the code draws 122 bars. *)
Example Graph_bars_410 : Graph_bars 410 = 122.
Proof. vm_compute. reflexivity. Qed.

Example Graph_negative : Graph (-30) = ("", None).
Proof. vm_compute. reflexivity. Qed.

End graph.

Module catalog.

Import table gostring gostring_facts.

(** C7. The [id] function of a writer returns its argument unchanged when
    [NoTrunc] or [Quiet] is set; otherwise an argument of more than 12
    bytes is cut to its first 12 bytes, and a shorter one is returned
    unchanged. The error is always nil. *)
Theorem id_spec (config : WriterConfig.t) (s : string) :
  snd (id config s) = None
  /\ (WriterConfig.NoTrunc config || WriterConfig.Quiet config = true ->
      fst (id config s) = s)
  /\ (WriterConfig.NoTrunc config || WriterConfig.Quiet config = false ->
      12 < len s ->
      exists rest, s = fst (id config s) +:+ rest
                   /\ len (fst (id config s)) = 12)
  /\ (WriterConfig.NoTrunc config || WriterConfig.Quiet config = false ->
      len s <= 12 ->
      fst (id config s) = s).
Proof.
  unfold id, len.
  destruct (WriterConfig.NoTrunc config || WriterConfig.Quiet config);
    [repeat split; intros; try reflexivity; discriminate|].
  destruct (Z.ltb_spec 12 (Z.of_nat (String.length s))) as [Hlt|Hge];
    repeat split; intros; try reflexivity; try discriminate; try lia.
  cbn [fst]. unfold slice_to.
  destruct (substring_prefix (Z.to_nat 12) s) as (rest & Hs & Hl); [lia|].
  exists rest. split; [exact Hs|]. rewrite Hl. reflexivity.
Qed.

Lemma id_spec_witness :
  exists rest,
    "abcdef0123456789"
    = fst (id (scenario.config false "") "abcdef0123456789") +:+ rest
    /\ len (fst (id (scenario.config false "") "abcdef0123456789")) = 12.
Proof.
  destruct (id_spec (scenario.config false "") "abcdef0123456789")
    as (_ & _ & Hcut & _).
  apply Hcut; [reflexivity | vm_compute; reflexivity].
Defined.

Example id_truncates :
  id (scenario.config false "") "abcdef0123456789" = ("abcdef012345", None).
Proof. vm_compute. reflexivity. Qed.

Example id_quiet :
  id (scenario.config true "") "abcdef0123456789" = ("abcdef0123456789", None).
Proof. vm_compute. reflexivity. Qed.

Section WithLibs.

Context (L : Libs).

(** C10. [Pointer] is not total. It panics on the nil interface value, on
    every int, on every string, and in general on every value whose kind
    has no nil. On a value of a kind that has a nil it returns the empty
    string when the value is nil, and the printed form of the value
    otherwise. *)
Theorem Pointer_spec :
  panics (Pointer L Nil)
  /\ (forall n : Z, panics (Pointer L (IntVal n)))
  /\ (forall s : string, panics (Pointer L (StringVal s)))
  /\ (forall data : Value,
        reflect.nilable (kindOf data) = false -> panics (Pointer L data))
  /\ (forall data : Value,
        reflect.nilable (kindOf data) = true ->
        Pointer L data
        = Returned (if isNilRef data then "" else fmt_Sprint L data)).
Proof.
  repeat split; try exact I.
  - intros data Hk. unfold Pointer, IsNil. rewrite Hk. exact I.
  - intros data Hk. unfold Pointer, IsNil. rewrite Hk.
    destruct (isNilRef data); reflexivity.
Qed.

End WithLibs.

Lemma Pointer_spec_witness :
  panics (Pointer (scenario.libs 0 false) (BoolVal true))
  /\ Pointer (scenario.libs 0 false) (PtrVal None) = Returned ""
  /\ Pointer (scenario.libs 0 false) (PtrVal (Some (IntVal 7)))
     = Returned "<value>".
Proof.
  destruct (Pointer_spec (scenario.libs 0 false)) as (_ & _ & _ & Hp & Hr).
  split; [apply Hp; reflexivity|].
  split; [apply (Hr (PtrVal None)) | apply (Hr (PtrVal (Some (IntVal 7))))];
    reflexivity.
Defined.

End catalog.

(** ** Construction *)

Module construction.

Import table gostring.

Section WithLibs.

Context (L : Libs).

(** [idFormat] answers with the first named row when that row has a
    template cell: rows before it are not named, or are empty. *)
Lemma idFormat_found (idColumn : string) (values : list (list string)) :
  forall (row : list string) (v : string),
    find (named idColumn) values = Some row ->
    row !! 1%nat = Some v ->
    idFormat L idColumn values = SimpleColumnFormat L v +:+ LF.
Proof.
  induction values as [|vals rest IH]; intros row v Hfind Hv; [discriminate|].
  cbn [find] in Hfind. cbn [idFormat].
  destruct (named idColumn vals) eqn:Hn.
  - injection Hfind as ->.
    destruct row as [|c [|v' tl]]; try discriminate.
    injection Hv as ->. cbn in Hn |- *. rewrite Hn. reflexivity.
  - rewrite (IH row v Hfind Hv).
    destruct vals as [|c tl]; [reflexivity|].
    cbn in Hn. cbn [nth]. rewrite Hn, andb_false_r. reflexivity.
Qed.

Lemma idFormat_none (idColumn : string) (values : list (list string)) :
  find (named idColumn) values = None ->
  idFormat L idColumn values = "".
Proof.
  induction values as [|vals rest IH]; intros Hfind; [reflexivity|].
  cbn [find] in Hfind. cbn [idFormat].
  destruct (named idColumn vals) eqn:Hn; [discriminate|].
  rewrite (IH Hfind).
  destruct vals as [|c tl]; [reflexivity|].
  cbn in Hn. cbn [nth]. rewrite Hn, andb_false_r. reflexivity.
Qed.

(** The templates of a quiet writer with no format. *)
Lemma NewWriter_quiet (values : list (list string)) (config : WriterConfig.t) :
  WriterConfig.Quiet config = true ->
  WriterConfig.Format config = "" ->
  HeaderFormat (NewWriter L values config) = ""
  /\ ValueFormat (NewWriter L values config)
     = idFormat L (WriterConfig.IDColumn config) values.
Proof.
  intros HQ HF. unfold NewWriter. rewrite HQ, HF. split; reflexivity.
Qed.

(** C6. With [Quiet] set and an empty [Format], construction clears the
    header template, and the value template is the one of the first row
    whose first cell is [IDColumn], the column template of its second cell,
    followed by a line feed. When no row has [IDColumn] as its first cell
    the value template is empty. *)
Theorem quiet_templates (values : list (list string)) (config : WriterConfig.t) :
  WriterConfig.Quiet config = true ->
  WriterConfig.Format config = "" ->
  HeaderFormat (NewWriter L values config) = ""
  /\ (forall (row : list string) (v : string),
        find (named (WriterConfig.IDColumn config)) values = Some row ->
        row !! 1%nat = Some v ->
        ValueFormat (NewWriter L values config)
        = SimpleColumnFormat L v +:+ LF)
  /\ (find (named (WriterConfig.IDColumn config)) values = None ->
      ValueFormat (NewWriter L values config) = "").
Proof.
  intros HQ HF.
  destruct (NewWriter_quiet values config HQ HF) as [Hh Hv].
  split; [exact Hh|]. rewrite Hv. split.
  - intros row v. apply idFormat_found.
  - apply idFormat_none.
Qed.

End WithLibs.

Lemma quiet_templates_witness :
  HeaderFormat
    (NewWriter (scenario.libs 0 false) scenario.columns (scenario.config true ""))
  = ""
  /\ ValueFormat
       (NewWriter (scenario.libs 0 false) scenario.columns (scenario.config true ""))
     = "{{.ID}}" +:+ LF.
Proof.
  destruct (quiet_templates (scenario.libs 0 false) scenario.columns
              (scenario.config true "") eq_refl eq_refl) as (Hh & Hv & _).
  split; [exact Hh|].
  apply (Hv ["ID"; "ID"] "ID"); reflexivity.
Defined.

(** A named row with no template cell is passed over: the second row
    answers here. *)
Example idFormat_short_row :
  idFormat (scenario.libs 0 false) "ID" [["ID"]; ["ID"; "Name"]]
  = "{{.Name}}" +:+ LF.
Proof. vm_compute. reflexivity. Qed.

End construction.

(** ** The write/close protocol *)

Module protocol.

Import table gostring.

Section WithLibs.

Context (L : Libs).

Implicit Types (t : writer) (log : list Event) (st : writer * list Event).

(** *** What no call changes: the templates and the sink are fixed at
    construction *)

Lemma same_setup_refl t : same_setup t t.
Proof. repeat split. Qed.

Lemma same_setup_trans t1 t2 t3 :
  same_setup t1 t2 -> same_setup t2 t3 -> same_setup t1 t3.
Proof. unfold same_setup. intuition congruence. Qed.

Ltac break_match :=
  match goal with
  | |- context [match ?x with _ => _ end] => destruct x eqn:?
  end.

Lemma writeHeader_setup t log : same_setup t (fst (writeHeader L t log)).
Proof.
  unfold writeHeader. repeat break_match; repeat split.
Qed.

Lemma writeHeader_closed t log :
  closed (fst (writeHeader L t log)) = closed t.
Proof. unfold writeHeader. repeat break_match; reflexivity. Qed.

(** *** The header *)

Lemma writeHeader_skip t log :
  negb (String.eqb (HeaderFormat t) "") && negb (headerPrinted t) = false ->
  writeHeader L t log = (t, log).
Proof. intros H. unfold writeHeader. rewrite H. reflexivity. Qed.

Lemma writeHeader_run t log :
  negb (String.eqb (HeaderFormat t) "") && negb (headerPrinted t) = true ->
  writeHeader L t log
  = (set_err (fst (printTemplate L (set_headerPrinted true t) (Writer t)
                     (HeaderFormat t) (StructVal []) log))
       (set_headerPrinted true t),
     snd (printTemplate L (set_headerPrinted true t) (Writer t)
            (HeaderFormat t) (StructVal []) log)).
Proof.
  intros H. unfold writeHeader. rewrite H. cbn.
  destruct (printTemplate _ _ _ _ _ _); reflexivity.
Qed.

Lemma writeHeader_flag t log :
  headerPrinted (fst (writeHeader L t log))
  = headerPrinted t
    || negb (String.eqb (HeaderFormat t) "") && negb (headerPrinted t).
Proof.
  destruct (negb (String.eqb (HeaderFormat t) "") && negb (headerPrinted t))
    eqn:H.
  - rewrite writeHeader_run by exact H. cbn. now rewrite orb_true_r.
  - rewrite writeHeader_skip by exact H. cbn. now rewrite orb_false_r.
Qed.

(** *** One call *)

Lemma Write_errored obj t log :
  failed (err t) = true -> Write L obj t log = (t, log).
Proof. intros H. unfold Write. rewrite H. reflexivity. Qed.

Lemma Close_errored t log :
  failed (err t) = true -> Close L t log = (err t, t, log).
Proof.
  intros H. unfold Close. rewrite H. destruct (closed t); reflexivity.
Qed.

Lemma Close_closed t log :
  closed t = true -> Close L t log = (err t, t, log).
Proof. intros H. unfold Close. rewrite H. reflexivity. Qed.

(** The part of [Write] after the header. *)
Lemma Write_unfold obj t log :
  failed (err t) = false ->
  failed (err (fst (writeHeader L t log))) = true ->
  Write L obj t log = writeHeader L t log.
Proof.
  intros H0 H1. unfold Write. rewrite H0.
  destruct (writeHeader L t log) as [t1 log1]. cbn in H1. rewrite H1.
  reflexivity.
Qed.

Lemma Write_setup obj t log : same_setup t (fst (Write L obj t log)).
Proof.
  unfold Write.
  destruct (failed (err t)); [apply same_setup_refl|].
  pose proof (writeHeader_setup t log) as Hs.
  destruct (writeHeader L t log) as [t1 log1]. cbn in Hs.
  eapply same_setup_trans; [exact Hs|].
  unfold FormatJSON, FormatJSONCompact.
  repeat break_match; repeat split.
Qed.

Lemma Write_flag obj t log :
  headerPrinted (fst (Write L obj t log))
  = headerPrinted t || renders_header (CallWrite obj) t.
Proof.
  unfold renders_header, Write.
  destruct (failed (err t)); [cbn; now rewrite orb_false_r|].
  pose proof (writeHeader_flag t log) as Hf.
  destruct (writeHeader L t log) as [t1 log1]. cbn in Hf.
  cbn [negb andb]. rewrite <- Hf.
  unfold FormatJSON, FormatJSONCompact.
  repeat break_match; reflexivity.
Qed.

Lemma Close_setup t log : same_setup t (snd (fst (Close L t log))).
Proof.
  unfold Close.
  destruct (closed t); [apply same_setup_refl|].
  destruct (failed (err t)); [apply same_setup_refl|].
  pose proof (writeHeader_setup t log) as Hs.
  destruct (writeHeader L t log) as [t1 log1]. cbn in Hs.
  repeat break_match; exact Hs.
Qed.

Lemma Close_flag t log :
  headerPrinted (snd (fst (Close L t log)))
  = headerPrinted t || renders_header CallClose t.
Proof.
  unfold renders_header, Close.
  destruct (closed t); [cbn; now rewrite orb_false_r|].
  destruct (failed (err t)); [cbn; now rewrite orb_false_r|].
  pose proof (writeHeader_flag t log) as Hf.
  destruct (writeHeader L t log) as [t1 log1]. cbn in Hf.
  cbn [negb andb]. rewrite <- Hf.
  repeat break_match; reflexivity.
Qed.

Lemma call_setup c st : same_setup (fst st) (fst (call L c st)).
Proof.
  destruct st as [t log], c as [obj| | |name f]; cbn [call fst snd].
  - apply Write_setup.
  - pose proof (Close_setup t log) as H.
    destruct (Close L t log) as [[e t1] log1]. exact H.
  - pose proof (Close_setup t log) as H. unfold Err.
    destruct (Close L t log) as [[e t1] log1]. exact H.
  - repeat split.
Qed.

Lemma call_flag c st :
  headerPrinted (fst (call L c st))
  = headerPrinted (fst st) || renders_header c (fst st).
Proof.
  destruct st as [t log], c as [obj| | |name f]; cbn [call fst snd].
  - apply Write_flag.
  - pose proof (Close_flag t log) as H.
    destruct (Close L t log) as [[e t1] log1]. exact H.
  - pose proof (Close_flag t log) as H. unfold Err.
    destruct (Close L t log) as [[e t1] log1]. exact H.
  - cbn. now rewrite orb_false_r.
Qed.

(** An errored writer keeps its error and leaves the sink alone. *)
Lemma call_errored c st :
  failed (err (fst st)) = true ->
  snd (call L c st) = snd st /\ err (fst (call L c st)) = err (fst st).
Proof.
  destruct st as [t log]. cbn [fst snd]. intros H.
  destruct c as [obj| | |name f]; cbn [call fst snd]; unfold Err.
  - rewrite Write_errored by exact H. split; reflexivity.
  - rewrite Close_errored by exact H. split; reflexivity.
  - rewrite Close_errored by exact H. split; reflexivity.
  - split; reflexivity.
Qed.

(** *** Sequences of calls *)

Lemma calls_app cs1 cs2 st :
  calls L (cs1 ++ cs2) st = calls L cs2 (calls L cs1 st).
Proof. unfold calls. apply fold_left_app. Qed.

Lemma calls_cons c cs st : calls L (c :: cs) st = calls L cs (call L c st).
Proof. reflexivity. Qed.

Lemma calls_errored cs :
  forall st,
    failed (err (fst st)) = true ->
    snd (calls L cs st) = snd st /\ err (fst (calls L cs st)) = err (fst st).
Proof.
  induction cs as [|c cs IH]; intros st H; [split; reflexivity|].
  rewrite calls_cons.
  destruct (call_errored c st H) as [Hlog Herr].
  destruct (IH (call L c st)) as [Hlog' Herr']; [now rewrite Herr|].
  split; congruence.
Qed.

Lemma calls_setup cs : forall st, same_setup (fst st) (fst (calls L cs st)).
Proof.
  induction cs as [|c cs IH]; intros st; [apply same_setup_refl|].
  rewrite calls_cons.
  eapply same_setup_trans; [apply call_setup | apply IH].
Qed.

(** C1. Once the sticky error of a writer is set, whatever calls follow
    ([Write], [Close], [Err], [AddFormatFunc]) make no call on the sink: the
    record of the sink's calls after [cs1 ++ cs2] is the one after [cs1],
    and the error stays the same. *)
Theorem sticky_error_silences (cs1 cs2 : list Call) st :
  failed (err (fst (calls L cs1 st))) = true ->
  snd (calls L (cs1 ++ cs2) st) = snd (calls L cs1 st)
  /\ err (fst (calls L (cs1 ++ cs2) st)) = err (fst (calls L cs1 st)).
Proof.
  intros H. rewrite calls_app. apply calls_errored. exact H.
Qed.

(** *** The header flag *)

Lemma header_transitions_printed cs :
  forall st,
    headerPrinted (fst st) = true -> header_transitions L cs st = 0%nat.
Proof.
  induction cs as [|c cs IH]; intros st H; [reflexivity|].
  cbn [header_transitions]. rewrite H. cbn [negb andb].
  apply IH. rewrite call_flag, H. reflexivity.
Qed.

Lemma header_transitions_le cs :
  forall st, (header_transitions L cs st <= 1)%nat.
Proof.
  induction cs as [|c cs IH]; intros st; cbn [header_transitions]; [lia|].
  destruct (headerPrinted (fst (call L c st))) eqn:Hafter.
  - rewrite header_transitions_printed by exact Hafter.
    destruct (negb (headerPrinted (fst st))); cbn; lia.
  - rewrite andb_false_r. specialize (IH (call L c st)). lia.
Qed.

(** C2, as the code has it. [headerPrinted] goes from false to true at most
    once in any sequence of calls. It does so in the call that gets to
    render the header (writer not errored, for [Close] not closed; header
    template not empty; flag false) and whatever the render returns: the
    flag is set before the template is printed, so after a failed header
    render the flag is true and the error of the render is the sticky
    error. *)
Theorem header_flag_spec :
  (forall cs st, (header_transitions L cs st <= 1)%nat)
  /\ (forall c st,
        headerPrinted (fst (call L c st))
        = headerPrinted (fst st) || renders_header c (fst st))
  /\ (forall t log,
        negb (String.eqb (HeaderFormat t) "") && negb (headerPrinted t) = true ->
        headerPrinted (fst (writeHeader L t log)) = true
        /\ err (fst (writeHeader L t log))
           = fst (printTemplate L (set_headerPrinted true t) (Writer t)
                    (HeaderFormat t) (StructVal []) log)).
Proof.
  split; [intros cs st; apply header_transitions_le|].
  split; [apply call_flag|].
  intros t log H. rewrite writeHeader_run by exact H. split; reflexivity.
Qed.

(** *** Writers with no header *)

Lemma NewWriter_fresh values config :
  headerPrinted (NewWriter L values config) = false
  /\ err (NewWriter L values config) = None
  /\ closed (NewWriter L values config) = false.
Proof.
  unfold NewWriter.
  repeat break_match; repeat split.
Qed.

Lemma NewWriter_sentinel values config :
  In (WriterConfig.Format config) ["json"; "jsoncompact"; "yaml"] ->
  HeaderFormat (NewWriter L values config) = ""
  /\ ValueFormat (NewWriter L values config) = WriterConfig.Format config.
Proof.
  intros [H | [H | [H | []]]]; unfold NewWriter; rewrite <- H;
    split; reflexivity.
Qed.

Lemma NewWriter_raw values config :
  WriterConfig.Format config = "raw" ->
  HeaderFormat (NewWriter L values config)
  = (if WriterConfig.Quiet config then "" else fst (SimpleFormat L values))
  /\ Writer (NewWriter L values config) = WriterConfig.Writer config.
Proof.
  intros H. unfold NewWriter. rewrite H.
  destruct (WriterConfig.Quiet config); split; reflexivity.
Qed.



(** *** Closing *)

Lemma flushes_write log p : flushes (log ++ [EvWrite p]) = flushes log.
Proof.
  unfold flushes. rewrite List.filter_app, List.length_app. cbn. lia.
Qed.

Lemma flushes_flush log : flushes (log ++ [EvFlush]) = S (flushes log).
Proof.
  unfold flushes. rewrite List.filter_app, List.length_app. cbn. lia.
Qed.

Lemma write_chunks_flushes out chunks :
  forall log, flushes (snd (write_chunks L out chunks log)) = flushes log.
Proof.
  induction chunks as [|c chunks IH]; intros log; cbn [write_chunks];
    [reflexivity|].
  destruct (io_Write L out log c); cbn [snd].
  - apply flushes_write.
  - rewrite IH. apply flushes_write.
Qed.

Lemma printTemplate_flushes t out text obj log :
  flushes (snd (printTemplate L t out text obj log)) = flushes log.
Proof.
  unfold printTemplate.
  destruct (template_Parse L (funcMap t) text); [reflexivity|].
  destruct (template_Execute L (funcMap t) text obj) as [chunks res].
  pose proof (write_chunks_flushes out chunks log) as H.
  destruct (write_chunks L out chunks log) as [[e|] log']; exact H.
Qed.

Lemma writeHeader_flushes t log :
  flushes (snd (writeHeader L t log)) = flushes log.
Proof.
  unfold writeHeader. break_match; [|reflexivity].
  pose proof (printTemplate_flushes (set_headerPrinted true t)
                (Writer (set_headerPrinted true t))
                (HeaderFormat (set_headerPrinted true t)) (StructVal []) log) as H.
  destruct (printTemplate _ _ _ _ _ _). exact H.
Qed.

Lemma Write_flushes obj t log :
  flushes (snd (Write L obj t log)) = flushes log.
Proof.
  unfold Write.
  destruct (failed (err t)); [reflexivity|].
  pose proof (writeHeader_flushes t log) as Hh.
  destruct (writeHeader L t log) as [t1 log1]. cbn [snd] in Hh.
  rewrite <- Hh. unfold FormatJSON, FormatJSONCompact.
  repeat match goal with
         | |- context [printTemplate L ?a ?b ?c ?d ?e] =>
             let H := fresh "Hp" in
             pose proof (printTemplate_flushes a b c d e) as H;
             destruct (printTemplate L a b c d e)
         | _ => break_match
         end;
    cbn [snd] in *; rewrite ?flushes_write; congruence.
Qed.

Lemma Write_closed obj t log : closed (fst (Write L obj t log)) = closed t.
Proof.
  unfold Write.
  destruct (failed (err t)); [reflexivity|].
  pose proof (writeHeader_closed t log) as Hh.
  destruct (writeHeader L t log) as [t1 log1]. cbn [fst] in Hh.
  rewrite <- Hh. unfold FormatJSON, FormatJSONCompact.
  repeat break_match; reflexivity.
Qed.

(** What one [Close] does to the flag [closed] and to the flush count. *)
Lemma Close_flushes t log :
  (closed t = true ->
   closed (snd (fst (Close L t log))) = true
   /\ flushes (snd (Close L t log)) = flushes log)
  /\ (closed t = false ->
      flushes (snd (Close L t log)) = flushes log
      \/ (flushes (snd (Close L t log)) = S (flushes log)
          /\ closed (snd (fst (Close L t log))) = true)).
Proof.
  unfold Close. destruct (closed t) eqn:Hc.
  - split; [intros _|discriminate]. cbn. auto.
  - split; [discriminate|intros _].
    destruct (failed (err t)); [left; reflexivity|].
    pose proof (writeHeader_flushes t log) as Hh.
    destruct (writeHeader L t log) as [t1 log1]. cbn [snd] in Hh.
    repeat break_match; cbn [fst snd]; rewrite ?flushes_flush; auto.
Qed.

(** After [Close] the writer is closed or errored. *)
Lemma Close_settled t log :
  closed (snd (fst (Close L t log))) = true
  \/ failed (err (snd (fst (Close L t log)))) = true.
Proof.
  unfold Close.
  destruct (closed t) eqn:Hc; [left; exact Hc|].
  destruct (failed (err t)) eqn:He; [right; exact He|].
  destruct (writeHeader L t log) as [t1 log1].
  repeat break_match; left; reflexivity.
Qed.

(** [Close] returns the sticky error, except when its flush fails: the
    error of the flush is returned and not stored. *)
Lemma Close_returns t log :
  flush_failed L t log = false ->
  fst (fst (Close L t log)) = err (snd (fst (Close L t log))).
Proof.
  unfold flush_failed, Close.
  destruct (closed t); [reflexivity|].
  destruct (failed (err t)); [reflexivity|].
  pose proof (writeHeader_flushes t log) as Hh.
  destruct (writeHeader L t log) as [t1 log1]. cbn [snd] in Hh.
  destruct (failed (err t1)) eqn:He; [reflexivity|].
  destruct (is_tabwriter (Writer t1)).
  - rewrite flushes_flush, Hh.
    replace (flushes log <? S (flushes log))%nat with true
      by (symmetry; apply Nat.ltb_lt; lia).
    rewrite andb_true_r. cbn [fst snd set_closed err].
    destruct (tabwriter_Flush L (Writer t1) log1); [discriminate|].
    destruct (err t1); [discriminate|reflexivity].
  - cbn [fst snd set_closed err]. destruct (err t1); [discriminate|reflexivity].
Qed.

Lemma Close_again t log :
  closed t = true \/ failed (err t) = true ->
  Close L t log = (err t, t, log).
Proof. intros [H|H]; [apply Close_closed | apply Close_errored]; exact H. Qed.

Lemma call_flushes c st :
  (closed (fst st) = true ->
   closed (fst (call L c st)) = true
   /\ flushes (snd (call L c st)) = flushes (snd st))
  /\ (closed (fst st) = false ->
      flushes (snd (call L c st)) = flushes (snd st)
      \/ (flushes (snd (call L c st)) = S (flushes (snd st))
          /\ closed (fst (call L c st)) = true)).
Proof.
  destruct st as [t log], c as [obj| | |name f]; cbn [call fst snd]; unfold Err.
  - rewrite Write_closed, Write_flushes. auto.
  - pose proof (Close_flushes t log) as H.
    destruct (Close L t log) as [[e t1] log1]. exact H.
  - pose proof (Close_flushes t log) as H.
    destruct (Close L t log) as [[e t1] log1]. exact H.
  - cbn. auto.
Qed.

Lemma calls_flushes cs :
  forall st,
    (flushes (snd (calls L cs st))
     <= flushes (snd st) + (if closed (fst st) then 0 else 1))%nat.
Proof.
  induction cs as [|c cs IH]; intros st; [cbn; lia|].
  rewrite calls_cons. specialize (IH (call L c st)).
  destruct (call_flushes c st) as [Hc Ho].
  destruct (closed (fst st)).
  - destruct (Hc eq_refl) as [Hc' Hf]. rewrite Hc' in IH. lia.
  - destruct (Ho eq_refl) as [Hf | [Hf Hc']].
    + destruct (closed (fst (call L c st))); lia.
    + rewrite Hc' in IH. lia.
Qed.

(** C4, as the code has it. A second [Close] makes no call on the sink and
    leaves the writer as the first left it; it returns the error the first
    returned, provided the first did not return the error of a failed
    flush. In any sequence of calls the sink is flushed at most once. On an
    errored writer [Close] returns the stored error, makes no call on the
    sink, and changes nothing in the writer: [closed] keeps its value. *)
Theorem Close_twice :
  (forall t log,
      let '(e1, t1, log1) := Close L t log in
      let '(e2, t2, log2) := Close L t1 log1 in
      log2 = log1 /\ t2 = t1
      /\ (flush_failed L t log = false -> e2 = e1))
  /\ (forall cs st, (flushes (snd (calls L cs st)) <= S (flushes (snd st)))%nat)
  /\ (forall t log,
        failed (err t) = true -> Close L t log = (err t, t, log)).
Proof.
  split; [|split].
  - intros t log.
    pose proof (Close_settled t log) as Hs.
    pose proof (Close_returns t log) as Hr.
    destruct (Close L t log) as [[e1 t1] log1]. cbn [fst snd] in Hs, Hr.
    rewrite (Close_again t1 log1 Hs).
    repeat split. intros Hf. symmetry. apply Hr. exact Hf.
  - intros cs st. pose proof (calls_flushes cs st) as H.
    destruct (closed (fst st)); lia.
  - apply Close_errored.
Qed.

(** *** JSON mode *)

(** One [Write] of a JSON writer with no pending error. *)
Lemma Write_json obj t log doc :
  failed (err t) = false ->
  HeaderFormat t = "" ->
  ValueFormat t = "json" ->
  json_MarshalIndent L obj "" "    " = (doc, None) ->
  Write L obj t log
  = (set_err (io_Write L (Writer t) log ((doc +:+ LF) +:+ LF)) t,
     log ++ [EvWrite ((doc +:+ LF) +:+ LF)]).
Proof.
  intros He Hh Hv Hm. unfold Write. rewrite He.
  rewrite writeHeader_skip by (rewrite Hh; reflexivity).
  rewrite He, Hv. cbn [String.eqb Ascii.eqb Bool.eqb].
  unfold FormatJSON. rewrite Hm. reflexivity.
Qed.

Lemma Writes_json objs :
  (forall w log p, io_Write L w log p = None) ->
  Forall (fun o => snd (json_MarshalIndent L o "" "    ") = None) objs ->
  forall t log,
    err t = None ->
    HeaderFormat t = "" ->
    ValueFormat t = "json" ->
    snd (calls L (map CallWrite objs) (t, log))
    = log ++ map (fun o =>
                    EvWrite ((fst (json_MarshalIndent L o "" "    ") +:+ LF) +:+ LF))
               objs.
Proof.
  intros Hio Hall. induction Hall as [|o objs Ho _ IH]; intros t log He Hh Hv.
  - cbn. now rewrite app_nil_r.
  - cbn [map]. rewrite calls_cons. cbn [call fst snd].
    destruct (json_MarshalIndent L o "" "    ") as [doc e] eqn:Hm.
    cbn [fst snd] in Ho |- *. subst e.
    rewrite (Write_json o t log doc) by (try rewrite He; auto).
    rewrite Hio, IH by auto. rewrite <- app_assoc. reflexivity.
Qed.

(** C5, as the code has it. In JSON mode a [Write] of a record whose
    marshalling succeeds makes one call on the sink: the 4-space-indented
    document followed by two line feeds, the one [FormatJSON] appends and
    one more. Nothing else is written: over a sink that accepts every
    write, the writes of a sequence of records are these documents, one per
    record and in order, with no bracket around them and no comma
    between them. *)
Theorem json_documents values config :
  WriterConfig.Format config = "json" ->
  (forall cs log obj doc,
      failed (err (fst (calls L cs (NewWriter L values config, log)))) = false ->
      json_MarshalIndent L obj "" "    " = (doc, None) ->
      snd (Write L obj (fst (calls L cs (NewWriter L values config, log)))
             (snd (calls L cs (NewWriter L values config, log))))
      = snd (calls L cs (NewWriter L values config, log))
          ++ [EvWrite ((doc +:+ LF) +:+ LF)])
  /\ (forall objs,
        (forall w log p, io_Write L w log p = None) ->
        Forall (fun o => snd (json_MarshalIndent L o "" "    ") = None) objs ->
        snd (calls L (map CallWrite objs) (NewWriter L values config, []))
        = map (fun o =>
                 EvWrite ((fst (json_MarshalIndent L o "" "    ") +:+ LF) +:+ LF))
            objs).
Proof.
  intros Hf.
  destruct (NewWriter_sentinel values config) as [Hh Hv];
    [rewrite Hf; left; reflexivity|].
  rewrite Hf in Hv.
  destruct (NewWriter_fresh values config) as (_ & He & _).
  split.
  - intros cs log obj doc Herr Hm.
    destruct (calls_setup cs (NewWriter L values config, log)) as (Hh' & Hv' & _).
    cbn [fst] in Hh', Hv'.
    rewrite (Write_json obj _ _ doc); auto; congruence.
  - intros objs Hio Hall.
    rewrite (Writes_json objs Hio Hall) by assumption. reflexivity.
Qed.

(** *** Templated mode *)

Lemma writeHeader_funcMap t log :
  funcMap (fst (writeHeader L t log)) = funcMap t.
Proof. unfold writeHeader. repeat break_match; reflexivity. Qed.

(** C9. In templated mode (the value template is none of json,
    jsoncompact, yaml), once the header is dealt with, [Write] renders the
    value template against one context: when the conversion of the record
    succeeds, the converted mapping with the key [Typed] bound to the
    record and every other key as converted; when it fails, the record
    itself. Rendering is: the template is parsed with the writer's
    functions, and a parse error is stored with nothing written; otherwise
    the template is executed against that context, its writes go to the sink
    in order up to the first one that fails, and the stored error is the
    error of that write or else the result of the execution. The error of a
    failed conversion is stored in no case. *)
Theorem templated_write obj t log :
  failed (err t) = false ->
  failed (err (fst (writeHeader L t log))) = false ->
  ~ In (ValueFormat t) ["json"; "jsoncompact"; "yaml"] ->
  exists ctx,
    match convert_EncodeToMap L obj with
    | inl data =>
        exists m : gmap string Value,
          ctx = MapVal (Some m)
          /\ m !! "Typed" = Some obj
          /\ (forall k, k <> "Typed" -> m !! k = data !! k)
    | inr _ => ctx = obj
    end
    /\ match template_Parse L (funcMap t) (ValueFormat t) with
       | Some e =>
           Write L obj t log
           = (set_err (Some e) (fst (writeHeader L t log)),
              snd (writeHeader L t log))
       | None =>
           Write L obj t log
           = (set_err
                (match
                    fst (write_chunks L (Writer t)
                           (fst (template_Execute L (funcMap t) (ValueFormat t) ctx))
                           (snd (writeHeader L t log)))
                  with
                  | Some e => Some e
                  | None =>
                      snd (template_Execute L (funcMap t) (ValueFormat t) ctx)
                  end)
                (fst (writeHeader L t log)),
              snd (write_chunks L (Writer t)
                     (fst (template_Execute L (funcMap t) (ValueFormat t) ctx))
                     (snd (writeHeader L t log))))
       end.
Proof.
  intros He Hh Hmode. unfold Write. rewrite He.
  destruct (writeHeader_setup t log) as (_ & Hv & Hw).
  pose proof (writeHeader_funcMap t log) as Hfm.
  destruct (writeHeader L t log) as [t1 log1]. cbn [fst snd] in *.
  rewrite Hh, Hv, Hw.
  destruct (String.eqb_spec (ValueFormat t) "json") as [E|_];
    [exfalso; apply Hmode; rewrite E; cbn; auto|].
  destruct (String.eqb_spec (ValueFormat t) "jsoncompact") as [E|_];
    [exfalso; apply Hmode; rewrite E; cbn; auto|].
  destruct (String.eqb_spec (ValueFormat t) "yaml") as [E|_];
    [exfalso; apply Hmode; rewrite E; cbn; auto|].
  assert (forall ctx,
             (let '(e, log') := printTemplate L t1 (Writer t) (ValueFormat t) ctx log1 in
              (set_err e t1, log'))
             = match template_Parse L (funcMap t) (ValueFormat t) with
               | Some e => (set_err (Some e) t1, log1)
               | None =>
                   (set_err
                      (match
                          fst (write_chunks L (Writer t)
                                 (fst (template_Execute L (funcMap t) (ValueFormat t) ctx))
                                 log1)
                        with
                        | Some e => Some e
                        | None =>
                            snd (template_Execute L (funcMap t) (ValueFormat t) ctx)
                        end) t1,
                    snd (write_chunks L (Writer t)
                           (fst (template_Execute L (funcMap t) (ValueFormat t) ctx))
                           log1))
               end) as Hprint.
  { intros ctx. unfold printTemplate. rewrite Hfm.
    destruct (template_Parse L (funcMap t) (ValueFormat t)); [reflexivity|].
    destruct (template_Execute L (funcMap t) (ValueFormat t) ctx) as [chunks res].
    cbn [fst snd].
    destruct (write_chunks L (Writer t) chunks log1) as [[e|] log2]; reflexivity. }
  destruct (convert_EncodeToMap L obj) as [data|ce].
  - exists (MapVal (Some (<["Typed" := obj]> data))). split.
    + exists (<["Typed" := obj]> data). split; [reflexivity|]. split.
      * apply lookup_insert_eq.
      * intros k Hk. apply lookup_insert_ne. congruence.
    + rewrite Hprint.
      destruct (template_Parse L (funcMap t) (ValueFormat t)); reflexivity.
  - exists obj. split; [reflexivity|].
    rewrite Hprint.
    destruct (template_Parse L (funcMap t) (ValueFormat t)); reflexivity.
Qed.

End WithLibs.

(** *** The protocol on concrete writers *)

Import scenario.

Lemma sticky_error_silences_witness :
  snd (calls (libs 0 false)
         ([CallWrite (IntVal 1)] ++ [CallWrite (IntVal 2); CallClose; CallErr])
         (NewWriter (libs 0 false) columns (config false "hello"), []))
  = snd (calls (libs 0 false) [CallWrite (IntVal 1)]
           (NewWriter (libs 0 false) columns (config false "hello"), []))
  /\ err (fst (calls (libs 0 false)
                 ([CallWrite (IntVal 1)] ++ [CallWrite (IntVal 2); CallClose; CallErr])
                 (NewWriter (libs 0 false) columns (config false "hello"), [])))
     = err (fst (calls (libs 0 false) [CallWrite (IntVal 1)]
                   (NewWriter (libs 0 false) columns (config false "hello"), []))).
Proof.
  apply (sticky_error_silences (libs 0 false)). vm_compute. reflexivity.
Defined.

Lemma header_flag_spec_witness :
  headerPrinted
    (fst (writeHeader (libs 0 false)
            (NewWriter (libs 0 false) columns (config false "raw")) []))
  = true
  /\ err (fst (writeHeader (libs 0 false)
                 (NewWriter (libs 0 false) columns (config false "raw")) []))
     = Some (mkError SinkWriteError "write: broken pipe").
Proof.
  destruct (header_flag_spec (libs 0 false)) as (_ & _ & H).
  destruct (H (NewWriter (libs 0 false) columns (config false "raw")) [] eq_refl)
    as [Hflag Herr].
  split; [exact Hflag|]. rewrite Herr. vm_compute. reflexivity.
Defined.

(** A raw writer writes straight to its stream. When the stream refuses
    the write of the header, the header render fails, and the flag is set
    all the same. *)
Lemma header_flag_set_on_failure :
  Writer (NewWriter (libs 0 false) columns (config false "raw"))
  = Stream "stdout"
  /\ headerPrinted (NewWriter (libs 0 false) columns (config false "raw"))
     = false
  /\ writeHeader (libs 0 false)
       (NewWriter (libs 0 false) columns (config false "raw")) []
     = (set_err (Some (mkError SinkWriteError "write: broken pipe"))
          (set_headerPrinted true
             (NewWriter (libs 0 false) columns (config false "raw"))),
        [EvWrite ("ID" +:+ TAB +:+ "NAME" +:+ LF)])
  /\ Write (libs 0 false) (IntVal 1)
       (NewWriter (libs 0 false) columns (config false "raw")) []
     = (set_err (Some (mkError SinkWriteError "write: broken pipe"))
          (set_headerPrinted true
             (NewWriter (libs 0 false) columns (config false "raw"))),
        [EvWrite ("ID" +:+ TAB +:+ "NAME" +:+ LF)]).
Proof. repeat split; vm_compute; reflexivity. Qed.



Lemma Close_twice_witness :
  (let '(e1, t1, log1) :=
     Close (libs 9 false) (NewWriter (libs 9 false) columns (config false "json")) [] in
   let '(e2, t2, log2) := Close (libs 9 false) t1 log1 in
   log2 = log1 /\ t2 = t1 /\ e2 = e1)
  /\ Close (libs 0 false)
       (fst (Write (libs 0 false) (IntVal 1)
               (NewWriter (libs 0 false) columns (config false "")) []))
       [EvWrite ("ID" +:+ TAB +:+ "NAME" +:+ LF)]
     = (Some (mkError SinkWriteError "write: broken pipe"),
        fst (Write (libs 0 false) (IntVal 1)
               (NewWriter (libs 0 false) columns (config false "")) []),
        [EvWrite ("ID" +:+ TAB +:+ "NAME" +:+ LF)]).
Proof.
  destruct (Close_twice (libs 0 false)) as (_ & _ & Herrored).
  destruct (Close_twice (libs 9 false)) as (Htwice & _ & _).
  split.
  - specialize (Htwice (NewWriter (libs 9 false) columns (config false "json")) []).
    assert (flush_failed (libs 9 false)
              (NewWriter (libs 9 false) columns (config false "json")) []
            = false) as Hok by (vm_compute; reflexivity).
    destruct (Close (libs 9 false)
                (NewWriter (libs 9 false) columns (config false "json")) [])
      as [[e1 t1] log1].
    destruct (Close (libs 9 false) t1 log1) as [[e2 t2] log2].
    destruct Htwice as (Hlog & Ht & He). auto.
  - rewrite Herrored by (vm_compute; reflexivity). vm_compute. reflexivity.
Defined.

(** A failed flush is returned by the first [Close] and by no later one;
    and [Close] on an errored writer leaves [closed] false. *)
Lemma Close_twice_differs :
  (let '(e1, t1, log1) :=
     Close (libs 9 true) (NewWriter (libs 9 true) columns (config false "json")) [] in
   let '(e2, t2, log2) := Close (libs 9 true) t1 log1 in
   e1 = Some (mkError FlushError "flush: broken pipe") /\ e2 = None)
  /\ (let t := fst (Write (libs 0 false) (IntVal 1)
                      (NewWriter (libs 0 false) columns (config false "")) []) in
      let '(e, t', log') := Close (libs 0 false) t [] in
      e = Some (mkError SinkWriteError "write: broken pipe")
      /\ closed t' = false).
Proof. repeat split; vm_compute; reflexivity. Qed.

Lemma json_documents_witness :
  snd (Write (libs 9 false) (IntVal 3)
         (fst (calls (libs 9 false) []
                 (NewWriter (libs 9 false) columns (config false "json"), [])))
         (snd (calls (libs 9 false) []
                 (NewWriter (libs 9 false) columns (config false "json"), []))))
  = snd (calls (libs 9 false) []
           (NewWriter (libs 9 false) columns (config false "json"), []))
      ++ [EvWrite (("3" +:+ LF) +:+ LF)].
Proof.
  destruct (json_documents (libs 9 false) columns (config false "json") eq_refl)
    as [Hone _].
  apply Hone; vm_compute; reflexivity.
Defined.

(** In JSON mode the document is followed by two line feeds, not one. *)
Lemma json_write_two_line_feeds :
  snd (Write (libs 9 false) (IntVal 3)
         (NewWriter (libs 9 false) columns (config false "json")) [])
  = [EvWrite ("3" +:+ LF +:+ LF)]
  /\ snd (Write (libs 9 false) (IntVal 3)
            (NewWriter (libs 9 false) columns (config false "json")) [])
     <> [EvWrite ("3" +:+ LF)].
Proof.
  split; [vm_compute; reflexivity|].
  vm_compute. discriminate.
Qed.

Lemma templated_write_witness :
  (err (fst (Write field_libs (record "a1" "web")
               (NewWriter field_libs columns (config false "{{.Name}}")) []))
   = None
   /\ snd (Write field_libs (record "a1" "web")
             (NewWriter field_libs columns (config false "{{.Name}}")) [])
      = [EvWrite "web"; EvWrite LF])
  /\ (err (fst (Write field_libs (IntVal 3)
                  (NewWriter field_libs columns (config false "hello")) []))
      = None
      /\ snd (Write field_libs (IntVal 3)
                (NewWriter field_libs columns (config false "hello")) [])
         = [EvWrite ("hello" +:+ LF)]).
Proof.
  split.
  - destruct (templated_write field_libs (record "a1" "web")
                (NewWriter field_libs columns (config false "{{.Name}}")) [])
      as (ctx & Hctx & Hw).
    + reflexivity.
    + reflexivity.
    + intros [H | [H | [H | []]]]; vm_compute in H; discriminate H.
    + cbn [convert_EncodeToMap field_libs encodeToMap record] in Hctx.
      destruct Hctx as (m & -> & Htyped & Hother).
      assert (m = <["Typed" := record "a1" "web"]>
                    (<["ID" := StringVal "a1"]> {["Name" := StringVal "web"]}))
        as ->.
      { apply map_eq. intros k. destruct (decide (k = "Typed")) as [->|Hk].
        - rewrite lookup_insert_eq. exact Htyped.
        - rewrite lookup_insert_ne by congruence. apply Hother. exact Hk. }
      assert (template_Parse field_libs
                (funcMap (NewWriter field_libs columns (config false "{{.Name}}")))
                (ValueFormat (NewWriter field_libs columns (config false "{{.Name}}")))
              = None) as Hp by (vm_compute; reflexivity).
      rewrite Hp in Hw. rewrite Hw. split; vm_compute; reflexivity.
  - destruct (templated_write field_libs (IntVal 3)
                (NewWriter field_libs columns (config false "hello")) [])
      as (ctx & Hctx & Hw).
    + reflexivity.
    + reflexivity.
    + intros [H | [H | [H | []]]]; vm_compute in H; discriminate H.
    + cbn [convert_EncodeToMap field_libs encodeToMap] in Hctx. subst ctx.
      assert (template_Parse field_libs
                (funcMap (NewWriter field_libs columns (config false "hello")))
                (ValueFormat (NewWriter field_libs columns (config false "hello")))
              = None) as Hp by (vm_compute; reflexivity).
      rewrite Hp in Hw. rewrite Hw. split; vm_compute; reflexivity.
Defined.

End protocol.

(** ** More on the template helper functions *)

Module catalog_more.

Import table gostring gostring_facts.

Lemma Join_app (sep : string) (l1 l2 : list string) :
  l1 <> [] -> l2 <> [] ->
  Join (l1 ++ l2) sep = Join l1 sep +:+ sep +:+ Join l2 sep.
Proof.
  intros H1 H2. induction l1 as [|x l1 IH]; [congruence|].
  destruct l1 as [|y l1].
  - destruct l2 as [|z l2]; [congruence|]. reflexivity.
  - change (Join ((x :: y :: l1) ++ l2) sep)
      with (x +:+ sep +:+ Join ((y :: l1) ++ l2) sep).
    rewrite IH by discriminate.
    change (Join (x :: y :: l1) sep) with (x +:+ sep +:+ Join (y :: l1) sep).
    rewrite !app_assoc. reflexivity.
Qed.

(** X1. [ToArray] never fails, gives the empty string for the empty
    sequence, and composes over concatenation: the join of two non-empty
    sequences put end to end is the two joins with one separator [", "]
    between them. *)
Theorem ToArray_app (l1 l2 : list string) :
  snd (ToArray (l1 ++ l2)) = None
  /\ ToArray [] = ("", None)
  /\ (l1 <> [] -> l2 <> [] ->
      fst (ToArray (l1 ++ l2))
      = fst (ToArray l1) +:+ ", " +:+ fst (ToArray l2)).
Proof.
  repeat split. intros H1 H2. apply Join_app; assumption.
Qed.

Lemma ToArray_app_witness :
  fst (ToArray (["a"; "b"] ++ ["c"])) = "a, b" +:+ ", " +:+ "c".
Proof.
  destruct (ToArray_app ["a"; "b"] ["c"]) as (_ & _ & H).
  apply H; discriminate.
Defined.

(** X2. [ToArrayFirst] never fails; it gives the empty string for the
    empty sequence, and otherwise the first element, with which the result
    of [ToArray] on the same sequence begins. *)
Theorem ToArrayFirst_prefix (s : list string) :
  snd (ToArrayFirst s) = None
  /\ ToArrayFirst [] = ("", None)
  /\ fst (ToArrayFirst s) = hd "" s
  /\ exists rest, fst (ToArray s) = fst (ToArrayFirst s) +:+ rest.
Proof.
  destruct s as [|x [|y s]]; repeat split; cbn.
  - exists "". reflexivity.
  - exists "". symmetry. clear. induction x as [|a x IH]; [reflexivity|].
    rewrite app_cons, IH. reflexivity.
  - exists (", " +:+ Join (y :: s) ", "). reflexivity.
Qed.

(** X3. [BoolToStar] never fails and answers with a star or with the
    empty string; it answers with a star exactly for the boolean [true] and
    for a non-nil pointer to [true]. Nil, [false] and every value of
    another type give the empty string. *)
Theorem BoolToStar_spec (obj : Value) :
  snd (BoolToStar obj) = None
  /\ (fst (BoolToStar obj) = "*" \/ fst (BoolToStar obj) = "")
  /\ (fst (BoolToStar obj) = "*"
      <-> obj = BoolVal true \/ obj = PtrVal (Some (BoolVal true))).
Proof.
  unfold BoolToStar.
  destruct obj as [ |[|]| | | | | |[[ |[|]| | | | | | | | | | | ]|]| | | | | ];
    cbn; repeat split; auto; intros H;
    try discriminate H; try (destruct H as [H|H]; discriminate H).
Qed.

Section Conversions.

Context (convert_ToString : Value -> string).

(** X4. [FormatFirst] never fails. The first argument wins when its
    string form is not empty; otherwise the result is the string form of
    the second. The result is empty exactly when both string forms are. *)
Theorem FormatFirst_spec (data data2 : Value) :
  snd (FormatFirst convert_ToString data data2) = None
  /\ (convert_ToString data <> "" ->
      fst (FormatFirst convert_ToString data data2) = convert_ToString data)
  /\ (convert_ToString data = "" ->
      fst (FormatFirst convert_ToString data data2) = convert_ToString data2)
  /\ (fst (FormatFirst convert_ToString data data2) = ""
      <-> convert_ToString data = "" /\ convert_ToString data2 = "").
Proof.
  unfold FormatFirst.
  destruct (String.eqb_spec (convert_ToString data) "") as [E1|N1];
    destruct (String.eqb_spec (convert_ToString data2) "") as [E2|N2];
    cbn; repeat split; intros; try tauto; try congruence.
Qed.

End Conversions.

Lemma FormatFirst_spec_witness :
  fst (FormatFirst scenario.toString (StringVal "") (StringVal "fallback"))
  = "fallback"
  /\ fst (FormatFirst scenario.toString (StringVal "primary") (StringVal "fallback"))
     = "primary".
Proof.
  split.
  - destruct (FormatFirst_spec scenario.toString (StringVal "") (StringVal "fallback"))
      as (_ & _ & H & _).
    rewrite H; reflexivity.
  - destruct (FormatFirst_spec scenario.toString (StringVal "primary")
                (StringVal "fallback")) as (_ & H & _ & _).
    rewrite H; [reflexivity | discriminate].
Defined.

(** X5. The [id] function is idempotent, and with neither [NoTrunc] nor
    [Quiet] its result has at most 12 bytes. *)
Theorem id_idempotent (config : WriterConfig.t) (s : string) :
  fst (id config (fst (id config s))) = fst (id config s)
  /\ (WriterConfig.NoTrunc config || WriterConfig.Quiet config = false ->
      len (fst (id config s)) <= 12).
Proof.
  unfold id, len.
  destruct (WriterConfig.NoTrunc config || WriterConfig.Quiet config);
    [split; [reflexivity|discriminate]|].
  destruct (Z.ltb_spec 12 (Z.of_nat (String.length s))) as [Hlt|Hge]; cbn [fst].
  - unfold slice_to.
    destruct (substring_prefix (Z.to_nat 12) s) as (rest & _ & Hl); [lia|].
    rewrite Hl.
    destruct (Z.ltb_spec 12 (Z.of_nat (Z.to_nat 12))) as [Habs|_]; [lia|].
    split; [reflexivity|]. intros _. lia.
  - destruct (Z.ltb_spec 12 (Z.of_nat (String.length s))) as [Habs|_]; [lia|].
    split; [reflexivity|]. intros _. lia.
Qed.

Lemma id_idempotent_witness :
  len (fst (id (scenario.config false "") "abcdef0123456789")) <= 12.
Proof.
  destruct (id_idempotent (scenario.config false "") "abcdef0123456789")
    as [_ H].
  apply H. reflexivity.
Defined.

End catalog_more.

(** ** More on [Graph] *)

Module graph_more.

Import table gostring gostring_facts.

Lemma to_int_nonpos (f : spec_float) :
  float64.nonpos f = true -> float64.to_int f <= 0.
Proof.
  unfold float64.to_int.
  destruct f as [s|s| |s m e];
    cbn [float64.nonpos float64.mantissa float64.exponent]; try (cbn; lia).
  intros ->. cbn [cond_Zopp].
  change (Z.sgn (- Z.pos m)) with (-1).
  change (Z.abs (- Z.pos m)) with (Z.pos m).
  assert (0 <= Z.shiftl (Z.pos m) e) by (apply Z.shiftl_nonneg; lia).
  lia.
Qed.

Lemma binary_round_aux_nonpos (mx ex : Z) (lx : location) :
  float64.nonpos (binary_round_aux float64.prec float64.emax true mx ex lx)
  = true.
Proof.
  unfold binary_round_aux.
  destruct (shr_fexp _ _ mx ex lx) as [mrs e'].
  destruct (shr_fexp _ _ _ e' loc_Exact) as [mrs' e''].
  destruct (shr_m mrs'); try reflexivity.
  destruct (Z.leb _ _); reflexivity.
Qed.

Lemma of_int_nonpos (value : Z) :
  value <= 0 -> float64.nonpos (float64.of_int value) = true.
Proof.
  intros H. unfold float64.of_int, binary_normalize.
  destruct value as [|p|p]; [reflexivity|lia|].
  unfold binary_round. destruct (shl_align p 0 _) as [mz ez].
  apply binary_round_aux_nonpos.
Qed.

Lemma div_nonpos (x : spec_float) (m : positive) (e : Z) :
  float64.nonpos x = true ->
  float64.nonpos (float64.div x (S754_finite false m e)) = true.
Proof.
  unfold float64.div, SFdiv. destruct x as [s|s| |s mx ex]; try reflexivity.
  cbn [float64.nonpos]. intros ->.
  destruct (SFdiv_core_binary _ _ _ _ _ _) as [[mz ez] lz].
  apply binary_round_aux_nonpos.
Qed.

Lemma mul_nonpos (x : spec_float) (m : positive) (e : Z) :
  float64.nonpos x = true ->
  float64.nonpos (float64.mul x (S754_finite false m e)) = true.
Proof.
  unfold float64.mul, SFmul. destruct x as [s|s| |s mx ex]; try reflexivity.
  cbn [float64.nonpos]. intros ->.
  apply binary_round_aux_nonpos.
Qed.

(** X6. [Graph] draws nothing for a value that is zero or negative:
    the scaled binary64 value is then not positive, and so is [bars]. *)
Theorem Graph_nonpositive (value : Z) :
  value <= 0 -> Graph_bars value <= 0 /\ Graph value = ("", None).
Proof.
  intros H.
  assert (Graph_bars value <= 0) as Hb.
  { unfold Graph_bars, Graph_scaled. apply to_int_nonpos.
    assert (exists m e, float64.of_int 100 = S754_finite false m e)
      as (m1 & e1 & ->) by (vm_compute; eauto).
    assert (exists m e, float64.of_int 30 = S754_finite false m e)
      as (m2 & e2 & ->) by (vm_compute; eauto).
    apply mul_nonpos, div_nonpos, of_int_nonpos. exact H. }
  split; [exact Hb|].
  unfold Graph. destruct (Graph_bars value) as [|p|p]; try reflexivity. lia.
Qed.

Lemma Graph_nonpositive_witness : Graph (-30) = ("", None).
Proof. apply (Graph_nonpositive (-30)). lia. Defined.

(** X7. From 0 to 409 the rounding of the binary64 quotient and product
    loses nothing: [bars] is the exact [value * 30 / 100], rounded down.
    (At 410 it is one less.) *)
Theorem Graph_bars_exact (value : Z) :
  0 <= value < 410 -> Graph_bars value = value * 30 / 100.
Proof.
  intros H.
  assert (forallb (fun k => Graph_bars (Z.of_nat k) =? Z.of_nat k * 30 / 100)%Z
                  (seq 0 410) = true) as Hall by (vm_compute; reflexivity).
  rewrite forallb_forall in Hall.
  specialize (Hall (Z.to_nat value)).
  rewrite Z2Nat.id in Hall by lia.
  apply Z.eqb_eq, Hall, in_seq. lia.
Qed.

Lemma Graph_bars_exact_witness : Graph_bars 100 = 100 * 30 / 100.
Proof. apply Graph_bars_exact. lia. Defined.

End graph_more.

(** ** More on construction *)

Module construction_more.

Import table gostring gostring_facts.

Lemma last_byte_snoc (s : string) (c : ascii) :
  last_byte (s +:+ String c "") = Some c.
Proof.
  induction s as [|a s IH]; [reflexivity|].
  rewrite app_cons. cbn [last_byte]. rewrite IH.
  destruct (s +:+ String c "") eqn:E; [|reflexivity].
  destruct s; discriminate E.
Qed.

(** A text that ends with a line feed is no mode tag. *)
Lemma LF_not_sentinel (s : string) : ~ In (s +:+ LF) sentinels.
Proof.
  intros [H | [H | [H | []]]];
    apply (f_equal last_byte) in H; unfold LF in H;
    rewrite last_byte_snoc in H; discriminate H.
Qed.

Lemma empty_not_sentinel : ~ In "" sentinels.
Proof. intros [H | [H | [H | []]]]; discriminate H. Qed.

Section WithLibs.

Context (L : Libs).

Lemma idFormat_shape (idColumn : string) (values : list (list string)) :
  idFormat L idColumn values = ""
  \/ exists v, idFormat L idColumn values = v +:+ LF.
Proof.
  induction values as [|vals rest IH]; [left; reflexivity|].
  cbn [idFormat]. destruct (_ && _); [right; eauto | exact IH].
Qed.

Lemma idFormat_not_sentinel (idColumn : string) (values : list (list string)) :
  ~ In (idFormat L idColumn values) sentinels.
Proof.
  destruct (idFormat_shape idColumn values) as [-> | [v ->]].
  - apply empty_not_sentinel.
  - apply LF_not_sentinel.
Qed.

Lemma NewWriter_funcMap_eq (values : list (list string)) (config : WriterConfig.t) :
  funcMap (NewWriter L values config)
  = <["id" := fnId (WriterConfig.NoTrunc config) (WriterConfig.Quiet config)]>
      (localFuncMap ∪ sprig_TxtFuncMap L).
Proof.
  unfold NewWriter.
  repeat match goal with
         | |- context [if ?b then _ else _] => destruct b
         end; reflexivity.
Qed.

(** X8. The function map of a new writer: ["id"] is the writer's own
    closure, whatever sprig or the package define under that name; every
    other name of the package's map keeps the package's function, also when
    sprig defines the name; the remaining names are sprig's. *)
Theorem function_map_priorities (values : list (list string))
        (config : WriterConfig.t) :
  funcMap (NewWriter L values config) !! "id"
  = Some (fnId (WriterConfig.NoTrunc config) (WriterConfig.Quiet config))
  /\ (forall name f,
        name <> "id" ->
        localFuncMap !! name = Some f ->
        funcMap (NewWriter L values config) !! name = Some f)
  /\ (forall name,
        name <> "id" ->
        localFuncMap !! name = None ->
        funcMap (NewWriter L values config) !! name
        = sprig_TxtFuncMap L !! name).
Proof.
  rewrite NewWriter_funcMap_eq. split; [apply lookup_insert_eq|]. split.
  - intros name f Hn Hl. rewrite lookup_insert_ne by congruence.
    apply lookup_union_Some_l. exact Hl.
  - intros name Hn Hl. rewrite lookup_insert_ne by congruence.
    apply lookup_union_r. exact Hl.
Qed.

(** X9. With a [Format] that is neither empty nor raw, the templates
    depend on [Format] alone, whatever [Quiet] and the column definitions
    are: the header template is empty, and the value template is the mode
    tag for json, jsoncompact and yaml, and [Format] followed by a line feed
    for every other text. *)
Theorem format_overrides_quiet (values : list (list string))
        (config : WriterConfig.t) :
  WriterConfig.Format config <> "" ->
  WriterConfig.Format config <> "raw" ->
  HeaderFormat (NewWriter L values config) = ""
  /\ ValueFormat (NewWriter L values config)
     = (if existsb (String.eqb (WriterConfig.Format config)) sentinels
        then WriterConfig.Format config
        else WriterConfig.Format config +:+ LF).
Proof.
  intros He Hr. unfold NewWriter. cbn [existsb sentinels].
  destruct (String.eqb_spec (WriterConfig.Format config) "json") as [->|_];
    [destruct (WriterConfig.Quiet config); split; reflexivity|].
  destruct (String.eqb_spec (WriterConfig.Format config) "jsoncompact") as [->|_];
    [destruct (WriterConfig.Quiet config); split; reflexivity|].
  destruct (String.eqb_spec (WriterConfig.Format config) "yaml") as [->|_];
    [destruct (WriterConfig.Quiet config); split; reflexivity|].
  destruct (String.eqb_spec (WriterConfig.Format config) "raw") as [E|_];
    [congruence|].
  destruct (String.eqb_spec (WriterConfig.Format config) "") as [E|_];
    [congruence|].
  destruct (WriterConfig.Quiet config); split; reflexivity.
Qed.

(** X10. The mode of a new writer is read from its value template. That
    template is a mode tag (json, jsoncompact, yaml) exactly when [Format]
    is one, or when [Format] is empty or raw, [Quiet] is off and the default
    value template of the layout is itself such a tag. A custom template and
    the identifier template of a quiet writer never select these modes. *)
Theorem sentinel_mode_selection (values : list (list string))
        (config : WriterConfig.t) :
  In (ValueFormat (NewWriter L values config)) sentinels
  <-> In (WriterConfig.Format config) sentinels
      \/ (In (WriterConfig.Format config) [""; "raw"]
          /\ WriterConfig.Quiet config = false
          /\ In (snd (SimpleFormat L values)) sentinels).
Proof.
  unfold NewWriter.
  destruct (String.eqb_spec (WriterConfig.Format config) "json") as [E|N1].
  { rewrite E. destruct (WriterConfig.Quiet config); cbn; tauto. }
  destruct (String.eqb_spec (WriterConfig.Format config) "jsoncompact") as [E|N2].
  { rewrite E. destruct (WriterConfig.Quiet config); cbn; tauto. }
  destruct (String.eqb_spec (WriterConfig.Format config) "yaml") as [E|N3].
  { rewrite E. destruct (WriterConfig.Quiet config); cbn; tauto. }
  assert (~ In (WriterConfig.Format config) sentinels) as Hns
      by (intros [H | [H | [H | []]]]; congruence).
  destruct (String.eqb_spec (WriterConfig.Format config) "raw") as [E|N4];
    [|destruct (String.eqb_spec (WriterConfig.Format config) "") as [E|N5]].
  - destruct (WriterConfig.Quiet config); cbn [ValueFormat set_formats].
    + pose proof (idFormat_not_sentinel (WriterConfig.IDColumn config) values).
      split; [tauto|]. intros [H1 | (_ & H1 & _)]; [tauto | discriminate].
    + rewrite E in Hns |- *.
      split; [intros H; right; repeat split; [cbn; auto | exact H]|].
      intros [H | (_ & _ & H)]; [contradiction | exact H].
  - destruct (WriterConfig.Quiet config); cbn [ValueFormat set_formats negb].
    + pose proof (idFormat_not_sentinel (WriterConfig.IDColumn config) values).
      split; [tauto|]. intros [H1 | (_ & H1 & _)]; [tauto | discriminate].
    + rewrite E in Hns |- *.
      split; [intros H; right; repeat split; [cbn; auto | exact H]|].
      intros [H | (_ & _ & H)]; [contradiction | exact H].
  - pose proof (LF_not_sentinel (WriterConfig.Format config)).
    destruct (WriterConfig.Quiet config); cbn [ValueFormat set_formats negb];
      (split; [tauto|]); intros [H1 | ([H1 | [H1 | []]] & _)]; congruence.
Qed.

End WithLibs.

Lemma function_map_priorities_witness :
  funcMap (NewWriter (scenario.libs 9 false) scenario.columns
             (scenario.config false "")) !! "json"
  = Some fnFormatJSON
  /\ funcMap (NewWriter (scenario.libs 9 false) scenario.columns
                (scenario.config false "")) !! "upper"
     = Some (fnSprig "upper").
Proof.
  destruct (function_map_priorities (scenario.libs 9 false) scenario.columns
              (scenario.config false "")) as (_ & Hlocal & Hsprig).
  split.
  - apply Hlocal; [discriminate | vm_compute; reflexivity].
  - rewrite Hsprig; [vm_compute; reflexivity | discriminate
                     | vm_compute; reflexivity].
Defined.

Lemma format_overrides_quiet_witness :
  HeaderFormat (NewWriter (scenario.libs 9 false) scenario.columns
                  (scenario.config true "{{.Name}}")) = ""
  /\ ValueFormat (NewWriter (scenario.libs 9 false) scenario.columns
                    (scenario.config true "{{.Name}}"))
     = "{{.Name}}" +:+ LF.
Proof.
  apply (format_overrides_quiet (scenario.libs 9 false) scenario.columns
           (scenario.config true "{{.Name}}")); discriminate.
Defined.

End construction_more.

(** ** More on the protocol *)

Module protocol_more.

Import table gostring gostring_facts protocol.

(** X11. [AddFormatFunc] binds the name: a lookup of the name gives the
    function added last, every other name keeps its binding, and adding
    twice under one name is adding the second function. Nothing else in the
    writer changes, and the call is accepted in every state. *)
Theorem AddFormatFunc_lookup (name : string) (f : FormatFunc) (t : writer) :
  funcMap (AddFormatFunc name f t) !! name = Some f
  /\ (forall other,
        other <> name ->
        funcMap (AddFormatFunc name f t) !! other = funcMap t !! other)
  /\ (forall g,
        AddFormatFunc name g (AddFormatFunc name f t) = AddFormatFunc name g t)
  /\ same_setup t (AddFormatFunc name f t)
  /\ err (AddFormatFunc name f t) = err t
  /\ closed (AddFormatFunc name f t) = closed t
  /\ headerPrinted (AddFormatFunc name f t) = headerPrinted t.
Proof.
  unfold AddFormatFunc. cbn. repeat split.
  - apply lookup_insert_eq.
  - intros other Hne. apply lookup_insert_ne. congruence.
  - intros g. unfold set_funcMap. cbn. now rewrite insert_insert_eq.
Qed.

Section WithLibs.

Context (L : Libs).

Implicit Types (t : writer) (log : list Event) (st : writer * list Event).

Ltac break_match :=
  match goal with
  | |- context [match ?x with _ => _ end] => destruct x eqn:?
  end.

(** X12. No call changes the mode of a writer: after any sequence of
    calls the header template, the value template and the sink are the ones
    the writer started with. *)
Theorem mode_is_fixed (cs : list Call) st :
  HeaderFormat (fst (calls L cs st)) = HeaderFormat (fst st)
  /\ ValueFormat (fst (calls L cs st)) = ValueFormat (fst st)
  /\ Writer (fst (calls L cs st)) = Writer (fst st).
Proof. exact (calls_setup L cs st). Qed.

(** X13. A closed writer stays closed, and no later call flushes its
    sink. *)
Theorem closed_is_final (cs : list Call) :
  forall st,
    closed (fst st) = true ->
    closed (fst (calls L cs st)) = true
    /\ flushes (snd (calls L cs st)) = flushes (snd st).
Proof.
  induction cs as [|c cs IH]; intros st Hc; [split; [exact Hc|reflexivity]|].
  rewrite calls_cons.
  destruct (call_flushes L c st) as [Hclosed _].
  destruct (Hclosed Hc) as [Hc' Hf].
  destruct (IH (call L c st) Hc') as [Hc'' Hf']. split; congruence.
Qed.

Lemma writeHeader_set_closed (b : bool) t log :
  writeHeader L (set_closed b t) log
  = (set_closed b (fst (writeHeader L t log)), snd (writeHeader L t log)).
Proof.
  unfold writeHeader. cbn [HeaderFormat headerPrinted set_closed].
  destruct (_ && _); [|reflexivity].
  unfold printTemplate.
  cbn [funcMap Writer HeaderFormat set_headerPrinted set_closed].
  repeat break_match; reflexivity.
Qed.

(** X14. [Write] does not look at [closed]: on a closed writer it makes
    the calls on the sink, and the changes to the writer, that it makes on
    the same writer when open. *)
Theorem Write_ignores_closed (b : bool) (obj : Value) t log :
  Write L obj (set_closed b t) log
  = (set_closed b (fst (Write L obj t log)), snd (Write L obj t log)).
Proof.
  unfold Write. rewrite writeHeader_set_closed. cbn [err set_closed].
  destruct (failed (err t)); [reflexivity|].
  destruct (writeHeader L t log) as [t1 log1]. cbn [fst snd err set_closed].
  destruct (failed (err t1)); [reflexivity|].
  unfold FormatJSON, FormatJSONCompact, printTemplate.
  cbn [ValueFormat Writer funcMap set_closed].
  repeat break_match; reflexivity.
Qed.

(** *** The sentinel modes *)

Lemma Write_jsoncompact obj t log doc :
  err t = None ->
  HeaderFormat t = "" ->
  ValueFormat t = "jsoncompact" ->
  json_Marshal L obj = (doc, None) ->
  Write L obj t log
  = (set_err (io_Write L (Writer t) log (doc +:+ LF)) t,
     log ++ [EvWrite (doc +:+ LF)]).
Proof.
  intros He Hh Hv Hm. unfold Write. rewrite He. cbn [failed].
  rewrite writeHeader_skip by (rewrite Hh; reflexivity).
  rewrite He, Hv. cbn [failed String.eqb Ascii.eqb Bool.eqb].
  unfold FormatJSONCompact. rewrite Hm. reflexivity.
Qed.

Lemma Write_yaml obj t log doc y :
  err t = None ->
  HeaderFormat t = "" ->
  ValueFormat t = "yaml" ->
  json_MarshalIndent L obj "" "    " = (doc, None) ->
  yaml_JSONToYAML L (doc +:+ LF) = (y, None) ->
  Write L obj t log
  = (set_err (io_Write L (Writer t) (log ++ [EvWrite ("---" +:+ LF)])
                (y +:+ LF)) t,
     (log ++ [EvWrite ("---" +:+ LF)]) ++ [EvWrite (y +:+ LF)]).
Proof.
  intros He Hh Hv Hm Hy. unfold Write. rewrite He. cbn [failed].
  rewrite writeHeader_skip by (rewrite Hh; reflexivity).
  rewrite He, Hv. cbn [failed String.eqb Ascii.eqb Bool.eqb].
  unfold FormatJSON. rewrite Hm. cbn [failed]. rewrite Hy. reflexivity.
Qed.

Lemma set_err_same t : err t = None -> set_err None t = t.
Proof. destruct t. cbn. intros ->. reflexivity. Qed.

Lemma Writes_jsoncompact (objs : list Value) :
  (forall w log p, io_Write L w log p = None) ->
  Forall (fun o => snd (json_Marshal L o) = None) objs ->
  forall t log,
    err t = None ->
    HeaderFormat t = "" ->
    ValueFormat t = "jsoncompact" ->
    snd (calls L (map CallWrite objs) (t, log))
    = log ++ map (fun o => EvWrite (fst (json_Marshal L o) +:+ LF)) objs.
Proof.
  intros Hio Hall. induction Hall as [|o objs Ho _ IH]; intros t log He Hh Hv.
  - cbn. now rewrite List.app_nil_r.
  - cbn [map]. rewrite calls_cons. cbn [call fst snd].
    destruct (json_Marshal L o) as [doc e] eqn:Hm.
    cbn [fst snd] in Ho |- *. subst e.
    rewrite (Write_jsoncompact o t log doc) by assumption.
    rewrite Hio, set_err_same by assumption.
    rewrite IH by assumption. rewrite <- List.app_assoc. reflexivity.
Qed.

(** X15. In jsoncompact mode, over a sink that accepts every write, the
    writes of a sequence of records that all marshal are, in order, one
    compact document per record followed by a single line feed, and nothing
    else. *)
Theorem compact_documents (values : list (list string))
        (config : WriterConfig.t) (objs : list Value) :
  WriterConfig.Format config = "jsoncompact" ->
  (forall w log p, io_Write L w log p = None) ->
  Forall (fun o => snd (json_Marshal L o) = None) objs ->
  snd (calls L (map CallWrite objs) (NewWriter L values config, []))
  = map (fun o => EvWrite (fst (json_Marshal L o) +:+ LF)) objs.
Proof.
  intros Hf Hio Hall.
  destruct (NewWriter_sentinel L values config) as [Hh Hv];
    [rewrite Hf; right; left; reflexivity|].
  rewrite Hf in Hv.
  destruct (NewWriter_fresh L values config) as (_ & He & _).
  rewrite (Writes_jsoncompact objs Hio Hall) by assumption. reflexivity.
Qed.

(** X16. In yaml mode the sticky error after a [Write] is the result of
    the write of the document alone: the result of the write of the
    [---] marker is dropped, and the document is written also when the
    marker was refused. *)
Theorem yaml_marker_error_dropped obj t log doc y :
  err t = None ->
  HeaderFormat t = "" ->
  ValueFormat t = "yaml" ->
  json_MarshalIndent L obj "" "    " = (doc, None) ->
  yaml_JSONToYAML L (doc +:+ LF) = (y, None) ->
  err (fst (Write L obj t log))
  = io_Write L (Writer t) (log ++ [EvWrite ("---" +:+ LF)]) (y +:+ LF)
  /\ snd (Write L obj t log)
     = log ++ [EvWrite ("---" +:+ LF); EvWrite (y +:+ LF)].
Proof.
  intros He Hh Hv Hm Hy.
  rewrite (Write_yaml obj t log doc y) by assumption.
  cbn [fst snd set_err err]. rewrite <- List.app_assoc. split; reflexivity.
Qed.

Lemma Writes_yaml (objs : list Value) :
  (forall w log p, io_Write L w log p = None) ->
  Forall (fun o => snd (FormatJSON L o) = None
                   /\ snd (yaml_JSONToYAML L (fst (FormatJSON L o))) = None)
         objs ->
  forall t log,
    err t = None ->
    HeaderFormat t = "" ->
    ValueFormat t = "yaml" ->
    snd (calls L (map CallWrite objs) (t, log))
    = log ++ flat_map
               (fun o =>
                  [EvWrite ("---" +:+ LF);
                   EvWrite (fst (yaml_JSONToYAML L (fst (FormatJSON L o))) +:+ LF)])
               objs.
Proof.
  intros Hio Hall.
  induction Hall as [|o objs [Ho Hy] _ IH]; intros t log He Hh Hv.
  - cbn. now rewrite List.app_nil_r.
  - cbn [map flat_map]. rewrite calls_cons. cbn [call fst snd].
    unfold FormatJSON in Ho, Hy |- *.
    destruct (json_MarshalIndent L o "" "    ") as [doc e] eqn:Hm.
    cbn [fst snd] in Ho, Hy |- *. subst e.
    destruct (yaml_JSONToYAML L (doc +:+ LF)) as [y e] eqn:Hyy.
    cbn [fst snd] in Hy |- *. subst e.
    rewrite (Write_yaml o t log doc y) by assumption.
    rewrite Hio, set_err_same by assumption.
    rewrite IH by assumption. rewrite <- !List.app_assoc. reflexivity.
Qed.

(** X17. In yaml mode, over a sink that accepts every write, the writes
    of a sequence of records that all marshal and convert are, for each
    record in order, the marker [---] with a line feed and then the
    converted document with a line feed added. *)
Theorem yaml_documents (values : list (list string))
        (config : WriterConfig.t) (objs : list Value) :
  WriterConfig.Format config = "yaml" ->
  (forall w log p, io_Write L w log p = None) ->
  Forall (fun o => snd (FormatJSON L o) = None
                   /\ snd (yaml_JSONToYAML L (fst (FormatJSON L o))) = None)
         objs ->
  snd (calls L (map CallWrite objs) (NewWriter L values config, []))
  = flat_map (fun o =>
                [EvWrite ("---" +:+ LF);
                 EvWrite (fst (yaml_JSONToYAML L (fst (FormatJSON L o))) +:+ LF)])
      objs.
Proof.
  intros Hf Hio Hall.
  destruct (NewWriter_sentinel L values config) as [Hh Hv];
    [rewrite Hf; right; right; left; reflexivity|].
  rewrite Hf in Hv.
  destruct (NewWriter_fresh L values config) as (_ & He & _).
  rewrite (Writes_yaml objs Hio Hall) by assumption. reflexivity.
Qed.

(** X18. A record that cannot be encoded costs no call on the sink: in
    json and yaml mode when [json.MarshalIndent] fails, in jsoncompact mode
    when [json.Marshal] fails, in yaml mode when the conversion to YAML
    fails, [Write] leaves the record of the sink's calls as it was and
    stores that error. *)
Theorem encoding_failure_silent obj t log (e : error) :
  err t = None ->
  HeaderFormat t = "" ->
  (In (ValueFormat t) ["json"; "yaml"] ->
   snd (json_MarshalIndent L obj "" "    ") = Some e ->
   Write L obj t log = (set_err (Some e) t, log))
  /\ (ValueFormat t = "jsoncompact" ->
      snd (json_Marshal L obj) = Some e ->
      Write L obj t log = (set_err (Some e) t, log))
  /\ (ValueFormat t = "yaml" ->
      snd (json_MarshalIndent L obj "" "    ") = None ->
      snd (yaml_JSONToYAML L (fst (FormatJSON L obj))) = Some e ->
      Write L obj t log = (set_err (Some e) t, log)).
Proof.
  intros He Hh. unfold Write, FormatJSON, FormatJSONCompact.
  rewrite He. cbn [failed].
  rewrite writeHeader_skip by (rewrite Hh; reflexivity).
  rewrite He. cbn [failed]. repeat split.
  - intros [Hv | [Hv | []]] Hm; rewrite <- Hv;
      cbn [String.eqb Ascii.eqb Bool.eqb];
      destruct (json_MarshalIndent L obj "" "    ") as [doc e'];
      cbn [snd] in Hm; subst e'; reflexivity.
  - intros Hv Hm. rewrite Hv. cbn [String.eqb Ascii.eqb Bool.eqb].
    destruct (json_Marshal L obj) as [doc e']. cbn [snd] in Hm. subst e'.
    reflexivity.
  - intros Hv Hm Hy. rewrite Hv. cbn [String.eqb Ascii.eqb Bool.eqb].
    destruct (json_MarshalIndent L obj "" "    ") as [doc e'].
    cbn [fst snd] in Hm, Hy |- *. subst e'. cbn [failed].
    destruct (yaml_JSONToYAML L (doc +:+ LF)) as [y e'].
    cbn [snd] in Hy. subst e'. reflexivity.
Qed.

(** *** Templated mode, when nothing fails *)

Lemma write_chunks_accepted out chunks :
  (forall w log p, io_Write L w log p = None) ->
  forall log,
    write_chunks L out chunks log = (None, log ++ map EvWrite chunks).
Proof.
  intros Hio. induction chunks as [|c chunks IH]; intros log; cbn [write_chunks map].
  - now rewrite List.app_nil_r.
  - rewrite Hio, IH, <- List.app_assoc. reflexivity.
Qed.

Lemma printTemplate_ok t out text data log :
  (forall w log p, io_Write L w log p = None) ->
  renders_on L t text data ->
  printTemplate L t out text data log = (None, log ++ rendered L t text data).
Proof.
  intros Hio [Hp Hx]. unfold printTemplate, rendered. rewrite Hp.
  destruct (template_Execute L (funcMap t) text data) as [chunks res].
  cbn [fst snd] in Hx |- *. subst res.
  rewrite write_chunks_accepted by exact Hio. reflexivity.
Qed.

Lemma not_sentinel_eqb (v : string) :
  ~ In v sentinels ->
  String.eqb v "json" = false
  /\ String.eqb v "jsoncompact" = false
  /\ String.eqb v "yaml" = false.
Proof.
  intros H. repeat split; apply String.eqb_neq; intros E; apply H;
    rewrite E; cbn; auto.
Qed.

(** A [Write] once the header is dealt with. *)
Lemma Write_row obj t log :
  (forall w log p, io_Write L w log p = None) ->
  err t = None ->
  negb (String.eqb (HeaderFormat t) "") && negb (headerPrinted t) = false ->
  ~ In (ValueFormat t) sentinels ->
  renders_on L t (ValueFormat t) (value_context L obj) ->
  Write L obj t log
  = (t, log ++ rendered L t (ValueFormat t) (value_context L obj)).
Proof.
  intros Hio He Hh Hm Hv. unfold Write. rewrite He. cbn [failed].
  rewrite writeHeader_skip by exact Hh. rewrite He. cbn [failed].
  destruct (not_sentinel_eqb _ Hm) as (-> & -> & ->).
  unfold value_context in *.
  destruct (convert_EncodeToMap L obj) as [data|ce];
    rewrite printTemplate_ok by assumption;
    rewrite set_err_same by exact He; reflexivity.
Qed.

Lemma writeHeader_ok t log :
  (forall w log p, io_Write L w log p = None) ->
  err t = None ->
  negb (String.eqb (HeaderFormat t) "") && negb (headerPrinted t) = true ->
  renders_on L t (HeaderFormat t) (StructVal []) ->
  writeHeader L t log
  = (set_headerPrinted true t,
     log ++ rendered L t (HeaderFormat t) (StructVal [])).
Proof.
  intros Hio He Hh Hr. rewrite writeHeader_run by exact Hh.
  rewrite (printTemplate_ok (set_headerPrinted true t)) by assumption.
  cbn [fst snd]. rewrite set_err_same by exact He. reflexivity.
Qed.

(** A call that finds the header pending prints it and goes on as on the
    writer whose header is printed. *)
Lemma Write_split obj t log t1 log1 :
  err t = None ->
  writeHeader L t log = (t1, log1) ->
  err t1 = None ->
  negb (String.eqb (HeaderFormat t1) "") && negb (headerPrinted t1) = false ->
  Write L obj t log = Write L obj t1 log1.
Proof.
  intros He Hw He1 Hh1. unfold Write.
  rewrite He, Hw, He1. cbn [failed].
  rewrite writeHeader_skip by exact Hh1. rewrite He1. reflexivity.
Qed.

Lemma Close_split t log t1 log1 :
  closed t = false ->
  err t = None ->
  writeHeader L t log = (t1, log1) ->
  err t1 = None ->
  negb (String.eqb (HeaderFormat t1) "") && negb (headerPrinted t1) = false ->
  Close L t log = Close L t1 log1.
Proof.
  intros Hc He Hw He1 Hh1. unfold Close.
  pose proof (writeHeader_closed L t log) as Hc1. rewrite Hw in Hc1.
  cbn [fst] in Hc1. rewrite Hc, He, Hw, Hc1, Hc, He1. cbn [failed].
  rewrite writeHeader_skip by exact Hh1. rewrite He1. reflexivity.
Qed.

Lemma rows_stream (objs : list Value) t log :
  (forall w log p, io_Write L w log p = None) ->
  err t = None ->
  negb (String.eqb (HeaderFormat t) "") && negb (headerPrinted t) = false ->
  ~ In (ValueFormat t) sentinels ->
  Forall (fun o => renders_on L t (ValueFormat t) (value_context L o)) objs ->
  calls L (map CallWrite objs) (t, log)
  = (t, log ++ flat_map
                 (fun o => rendered L t (ValueFormat t) (value_context L o))
                 objs).
Proof.
  intros Hio He Hh Hm Hv. revert log.
  induction Hv as [|o objs Ho _ IH]; intros log.
  - cbn. now rewrite List.app_nil_r.
  - cbn [map flat_map]. rewrite calls_cons. cbn [call fst snd].
    rewrite Write_row by assumption.
    rewrite IH, <- List.app_assoc. reflexivity.
Qed.

Lemma Close_log t log :
  closed t = false ->
  err t = None ->
  negb (String.eqb (HeaderFormat t) "") && negb (headerPrinted t) = false ->
  snd (Close L t log)
  = log ++ (if is_tabwriter (Writer t) then [EvFlush] else []).
Proof.
  intros Hc He Hh. unfold Close. rewrite Hc, He. cbn [failed].
  rewrite writeHeader_skip by exact Hh. rewrite He. cbn [failed].
  destruct (is_tabwriter (Writer t)); cbn [snd];
    [reflexivity | now rewrite List.app_nil_r].
Qed.

(** X19. The table, when nothing fails. For a new writer with a header
    template, in templated mode, over a sink that accepts every write, when
    the header template parses and executes on the empty struct and the
    value template parses and executes on the context of each record of the
    sequence, the calls on the sink made by [Write] on each record and then
    [Close] are: the writes of the header, once and first, also when there
    is no record; the writes of each record's row, in order, each against
    the record's context; and one flush when the sink is a tabwriter. *)
Theorem table_stream (values : list (list string)) (config : WriterConfig.t)
        (objs : list Value) :
  (forall w log p, io_Write L w log p = None) ->
  HeaderFormat (NewWriter L values config) <> "" ->
  ~ In (ValueFormat (NewWriter L values config)) sentinels ->
  renders_on L (NewWriter L values config)
             (HeaderFormat (NewWriter L values config)) (StructVal []) ->
  Forall (fun o => renders_on L (NewWriter L values config)
                     (ValueFormat (NewWriter L values config))
                     (value_context L o))
         objs ->
  snd (calls L (map CallWrite objs ++ [CallClose])
         (NewWriter L values config, []))
  = rendered L (NewWriter L values config)
      (HeaderFormat (NewWriter L values config)) (StructVal [])
    ++ flat_map
         (fun o => rendered L (NewWriter L values config)
                     (ValueFormat (NewWriter L values config))
                     (value_context L o))
         objs
    ++ (if is_tabwriter (Writer (NewWriter L values config))
        then [EvFlush] else []).
Proof.
  intros Hio Hh Hm Hrh Hrv.
  destruct (NewWriter_fresh L values config) as (Hp & He & Hc).
  set (t := NewWriter L values config) in *.
  set (t1 := set_headerPrinted true t).
  set (H := rendered L t (HeaderFormat t) (StructVal [])).
  assert (negb (String.eqb (HeaderFormat t) "") && negb (headerPrinted t) = true)
    as Hpending.
  { rewrite Hp. apply String.eqb_neq in Hh. rewrite Hh. reflexivity. }
  assert (writeHeader L t [] = (t1, H)) as Hw
      by (rewrite writeHeader_ok by assumption; reflexivity).
  assert (negb (String.eqb (HeaderFormat t1) "") && negb (headerPrinted t1) = false)
    as Hdone by (cbn; apply andb_false_r).
  assert (calls L (map CallWrite objs ++ [CallClose]) (t, [])
          = calls L (map CallWrite objs ++ [CallClose]) (t1, H)) as ->.
  { destruct objs as [|o objs]; cbn [map app]; rewrite !calls_cons;
      cbn [call fst snd].
    - rewrite (Close_split t [] t1 H) by assumption. reflexivity.
    - rewrite (Write_split o t [] t1 H) by assumption. reflexivity. }
  rewrite calls_app.
  rewrite (rows_stream objs t1 H) by assumption.
  cbn [calls fold_left call fst snd].
  pose proof (Close_log t1
                (H ++ flat_map (fun o => rendered L t1 (ValueFormat t1)
                                           (value_context L o)) objs)
                Hc He Hdone) as Hcl.
  destruct (Close L t1 _) as [[e t2] log2]. cbn [snd] in Hcl |- *.
  rewrite Hcl, <- List.app_assoc. reflexivity.
Qed.

(** *** The sink *)

Lemma call_no_tabwriter c st :
  is_tabwriter (Writer (fst st)) = false ->
  flushes (snd (call L c st)) = flushes (snd st).
Proof.
  destruct st as [t log]. cbn [fst snd]. intros Hw.
  destruct c as [obj| | |name f]; cbn [call fst snd]; unfold Err;
    try apply Write_flushes; try reflexivity.
  all: unfold Close;
    destruct (closed t); [reflexivity|];
    destruct (failed (err t)); [reflexivity|];
    pose proof (writeHeader_flushes L t log) as Hf;
    destruct (writeHeader_setup L t log) as (_ & _ & Hs);
    destruct (writeHeader L t log) as [t1 log1]; cbn [fst snd] in Hf, Hs;
    rewrite Hs, Hw; destruct (failed (err t1)); exact Hf.
Qed.

(** X20. The sink of a new writer is the stream of the configuration
    itself when [Format] is raw, and otherwise a tabwriter around it with
    minimal width 10, tab width 1, padding 3, padding byte space and no
    flag. A raw writer over a stream that is no tabwriter never flushes,
    whatever the calls. *)
Theorem sink_selection (values : list (list string)) (config : WriterConfig.t) :
  (WriterConfig.Format config <> "raw" ->
   Writer (NewWriter L values config)
   = TabWriter (WriterConfig.Writer config) 10 1 3 " " 0)
  /\ (WriterConfig.Format config = "raw" ->
      Writer (NewWriter L values config) = WriterConfig.Writer config
      /\ (is_tabwriter (WriterConfig.Writer config) = false ->
          forall cs log,
            flushes (snd (calls L cs (NewWriter L values config, log)))
            = flushes log)).
Proof.
  split.
  - intros Hf. apply String.eqb_neq in Hf. unfold NewWriter. rewrite Hf.
    repeat break_match; reflexivity.
  - intros Hf. destruct (NewWriter_raw L values config Hf) as [_ Hw].
    split; [exact Hw|]. intros Hs cs. rewrite <- Hw in Hs.
    generalize dependent (NewWriter L values config). intros t _ Hs.
    assert (forall st, is_tabwriter (Writer (fst st)) = false ->
                       flushes (snd (calls L cs st)) = flushes (snd st)) as Hall.
    { induction cs as [|c cs IH]; intros st Hst; [reflexivity|].
      rewrite calls_cons, IH.
      - apply call_no_tabwriter. exact Hst.
      - destruct (call_setup L c st) as (_ & _ & ->). exact Hst. }
    intros log. apply (Hall (t, log)). exact Hs.
Qed.


End WithLibs.

(** *** On concrete writers *)

Import scenario.

Lemma closed_is_final_witness :
  closed (fst (calls plain_libs [CallWrite (IntVal 1); CallClose; CallErr]
                 (set_closed true (NewWriter plain_libs columns (config false "json")),
                  [])))
  = true
  /\ flushes (snd (calls plain_libs [CallWrite (IntVal 1); CallClose; CallErr]
                     (set_closed true
                        (NewWriter plain_libs columns (config false "json")),
                      [])))
     = flushes [].
Proof.
  apply (closed_is_final plain_libs [CallWrite (IntVal 1); CallClose; CallErr]
           (set_closed true (NewWriter plain_libs columns (config false "json")),
            [])).
  reflexivity.
Defined.

Lemma compact_documents_witness :
  snd (calls plain_libs (map CallWrite [IntVal 1; BoolVal true])
         (NewWriter plain_libs columns (config false "jsoncompact"), []))
  = [EvWrite ("1" +:+ LF); EvWrite ("true" +:+ LF)].
Proof.
  rewrite (compact_documents plain_libs columns (config false "jsoncompact")
             [IntVal 1; BoolVal true]).
  - reflexivity.
  - reflexivity.
  - intros; reflexivity.
  - repeat constructor.
Defined.

Lemma yaml_marker_error_dropped_witness :
  io_Write flaky_libs
    (Writer (NewWriter flaky_libs columns (config false "yaml"))) []
    ("---" +:+ LF)
  = Some (mkError SinkWriteError "write: interrupted")
  /\ err (fst (Write flaky_libs (IntVal 1)
                 (NewWriter flaky_libs columns (config false "yaml")) []))
     = None
  /\ snd (Write flaky_libs (IntVal 1)
            (NewWriter flaky_libs columns (config false "yaml")) [])
     = [EvWrite ("---" +:+ LF); EvWrite (("1" +:+ LF) +:+ LF)].
Proof.
  split; [reflexivity|].
  destruct (yaml_marker_error_dropped flaky_libs (IntVal 1)
              (NewWriter flaky_libs columns (config false "yaml")) []
              "1" ("1" +:+ LF))
    as [Herr Hlog]; try reflexivity.
  split; [rewrite Herr | rewrite Hlog]; reflexivity.
Defined.

Lemma yaml_documents_witness :
  snd (calls plain_libs (map CallWrite [IntVal 1; IntVal 2])
         (NewWriter plain_libs columns (config false "yaml"), []))
  = [EvWrite ("---" +:+ LF); EvWrite (("1" +:+ LF) +:+ LF);
     EvWrite ("---" +:+ LF); EvWrite (("2" +:+ LF) +:+ LF)].
Proof.
  rewrite (yaml_documents plain_libs columns (config false "yaml")
             [IntVal 1; IntVal 2]).
  - reflexivity.
  - reflexivity.
  - intros; reflexivity.
  - repeat constructor.
Defined.

Lemma encoding_failure_silent_witness :
  Write plain_libs (ChanVal (Some 1%nat))
    (NewWriter plain_libs columns (config false "json")) []
  = (set_err (Some (mkError EncodingError "json: unsupported type"))
       (NewWriter plain_libs columns (config false "json")),
     []).
Proof.
  destruct (encoding_failure_silent plain_libs (ChanVal (Some 1%nat))
              (NewWriter plain_libs columns (config false "json")) []
              (mkError EncodingError "json: unsupported type")
              eq_refl eq_refl) as (H & _ & _).
  apply H; [left; reflexivity | reflexivity].
Defined.

Lemma table_stream_witness :
  snd (calls field_libs
         (map CallWrite [record "a1" "web"; record "b2" "db"] ++ [CallClose])
         (NewWriter field_libs columns (config false ""), []))
  = [EvWrite ("ID" +:+ TAB +:+ "NAME" +:+ LF);
     EvWrite "a1"; EvWrite TAB; EvWrite "web"; EvWrite LF;
     EvWrite "b2"; EvWrite TAB; EvWrite "db"; EvWrite LF;
     EvFlush]
  /\ snd (calls field_libs (map CallWrite [] ++ [CallClose])
            (NewWriter field_libs columns (config false ""), []))
     = [EvWrite ("ID" +:+ TAB +:+ "NAME" +:+ LF); EvFlush].
Proof.
  split.
  - rewrite (table_stream field_libs columns (config false "")
               [record "a1" "web"; record "b2" "db"]).
    + vm_compute. reflexivity.
    + intros; reflexivity.
    + discriminate.
    + intros [H | [H | [H | []]]]; discriminate H.
    + split; vm_compute; reflexivity.
    + repeat constructor; vm_compute; reflexivity.
  - rewrite (table_stream field_libs columns (config false "") []).
    + vm_compute. reflexivity.
    + intros; reflexivity.
    + discriminate.
    + intros [H | [H | [H | []]]]; discriminate H.
    + split; vm_compute; reflexivity.
    + constructor.
Defined.

(** The same table over a record that is no map: the header is written,
    the first row fails when it reads a field, and nothing follows but the
    stored error. *)
Example table_stream_int_record :
  calls field_libs [CallWrite (IntVal 1); CallWrite (record "a1" "web")]
    (NewWriter field_libs columns (config false ""), [])
  = (set_err (Some (mkError TemplateExecutionError
                      "template: can't evaluate field"))
       (set_headerPrinted true (NewWriter field_libs columns (config false ""))),
     [EvWrite ("ID" +:+ TAB +:+ "NAME" +:+ LF)]).
Proof. vm_compute. reflexivity. Qed.

Lemma sink_selection_witness :
  flushes (snd (calls plain_libs [CallWrite (IntVal 1); CallClose; CallErr]
                  (NewWriter plain_libs columns (config false "raw"), [])))
  = flushes []
  /\ Writer (NewWriter plain_libs columns (config false ""))
     = TabWriter (Stream "stdout") 10 1 3 " " 0.
Proof.
  destruct (sink_selection plain_libs columns (config false "raw")) as [_ Hraw].
  destruct (sink_selection plain_libs columns (config false "")) as [Htab _].
  split.
  - destruct (Hraw eq_refl) as [_ Hnever]. apply Hnever. reflexivity.
  - apply Htab. discriminate.
Defined.


(** A raw writer handed a tabwriter as its stream does flush it. *)
Example raw_over_tabwriter_flushes :
  snd (calls plain_libs [CallClose]
         (NewWriter plain_libs []
            {| WriterConfig.Quiet := true; WriterConfig.NoTrunc := false;
               WriterConfig.Format := "raw";
               WriterConfig.Writer := TabWriter (Stream "stdout") 0 8 1 " " 0;
               WriterConfig.IDColumn := "ID" |}, []))
  = [EvFlush].
Proof. vm_compute. reflexivity. Qed.

End protocol_more.
